(** * connect-session-firestore: the session store over a document backend

    A shallow embedding of [lib/connect-session-firestore.js].  The store
    talks to a Firestore collection through promises and reports to its
    caller through a completion callback [fn].  The embedding keeps

    - JavaScript values as an inductive type (objects are finite maps from
      property names to values),
    - the collection as a finite map from document keys to documents,
    - promises as computations in a state-and-rejection monad: the state
      holds the collection, the clock read by [Date.now()], the number of
      requests served by the backend and the trace of callback invocations.

    Numbers are the integers (millisecond timestamps and lifetimes):
    the sum of two of them is the sum the code computes as long as the
    operands and the result are safe integers, of magnitude below 2^53;
    fractions, [NaN], the infinities and larger values are outside the
    model.  Strings are sequences of bytes.  The backend is the environment: it
    decides, request by request, how long a request takes and whether it
    succeeds, and what value a successful write is acknowledged with
    (firebase-admin, the package's peer dependency, fulfils [set] and
    [delete] with a [WriteResult]).  A request settles when it is issued,
    so one facade call runs to completion without interleaving, and the
    requests of one [forEach] settle in the order they were issued.  The
    callback is the environment too: each invocation returns or throws. *)

From Stdlib Require Import ZArith Lia Ascii String.
From stdpp Require Import base option list strings gmap fin_maps pretty.

Local Open Scope string_scope.
Local Open Scope Z_scope.

(** ** JavaScript values *)

#[warnings="-register-all"]
Inductive JsVal : Type :=
  | VUndef
  | VNull
  | VBool (b : bool)
  | VNum (n : Z)
  | VStr (s : string)
  | VErr (name : string)
  | VArr (items : list JsVal)
  | VObj (props : gmap string JsVal).

(** The state of a settled promise; [Rejected] also stands for a
    synchronous [throw], which a [then] handler turns into a rejection. *)
Inductive Settled (A : Type) : Type :=
  | Fulfilled (a : A)
  | Rejected (reason : JsVal).
Arguments Fulfilled {A} a.
Arguments Rejected {A} reason.

Module Js.

(** [ToBoolean]. *)
Definition truthy (v : JsVal) : bool :=
  match v with
  | VUndef | VNull => false
  | VBool b => b
  | VNum n => negb (n =? 0)
  | VStr s => negb (String.eqb s "")
  | VErr _ | VArr _ | VObj _ => true
  end.

Definition indexed (items : list JsVal) : gmap string JsVal :=
  list_to_map (imap (λ (i : nat) x, (pretty i, x)) items).

Definition chars (s : string) : list JsVal :=
  (λ c, VStr (String c EmptyString)) <$> list_ascii_of_string s.

(** The own enumerable properties of a value: what [Object.assign]
    copies from a source.  Primitives other than strings, [null],
    [undefined] and errors have none. *)
Definition own_props (v : JsVal) : gmap string JsVal :=
  match v with
  | VObj props => props
  | VArr items => indexed items
  | VStr s => indexed (chars s)
  | _ => ∅
  end.

(** Property read [v.k].  It is used with the names [cookie] and
    [maxAge] only, which no prototype defines, so the own properties
    decide; reading a property of [null] or [undefined] throws. *)
Definition member (v : JsVal) (k : string) : Settled JsVal :=
  match v with
  | VUndef | VNull => Rejected (VErr "TypeError")
  | _ => Fulfilled (default VUndef (own_props v !! k))
  end.

(** [Object.assign(target, ...sources)]: later sources win. *)
Definition Object_assign (target : gmap string JsVal) (sources : list JsVal)
  : gmap string JsVal :=
  foldl (λ acc src, own_props src ∪ acc) target sources.

(** [Promise.all] over promises that have settled: the values in order,
    or the first rejection. *)
Fixpoint Promise_all (ps : list (Settled JsVal)) : Settled (list JsVal) :=
  match ps with
  | [] => Fulfilled []
  | Rejected e :: _ => Rejected e
  | Fulfilled v :: rest =>
      match Promise_all rest with
      | Fulfilled vs => Fulfilled (v :: vs)
      | Rejected e => Rejected e
      end
  end.

End Js.

(** ** The key normaliser

    [str.replace(/\.|\$|#|\[|\]|\//g, '_')] *)

Definition disallowed (c : ascii) : bool :=
  (Ascii.eqb c "." || Ascii.eqb c "$" || Ascii.eqb c "#"
   || Ascii.eqb c "[" || Ascii.eqb c "]" || Ascii.eqb c "/")%char.

Definition replace_char (c : ascii) : ascii :=
  if disallowed c then "_"%char else c.

Fixpoint cleanRef (str : string) : string :=
  match str with
  | EmptyString => EmptyString
  | String c rest => String (replace_char c) (cleanRef rest)
  end.

(** ** Documents, the backend and the promise monad *)

(** Six hours in milliseconds. *)
Definition reapInterval : Z := 21600000.

(** The persisted record [{ expires, session, type }]. *)
Record Doc : Type := {
  expires : Z;
  session : JsVal;
  type : string
}.

(** How the backend answers one request: the time the request is in
    flight, and whether it succeeds.  [Fulfilled ack] is success; a write
    ([set], [delete]) fulfils its promise with [ack] (a [WriteResult] under
    firebase-admin), a read fulfils with its snapshot and ignores [ack]. *)
Record Reply : Type := {
  elapsed : N;
  outcome : Settled JsVal
}.

Record World : Type := {
  docs : gmap string Doc;
  clock : Z;
  served : nat
}.

Record State : Type := {
  world : World;
  calls : list (list JsVal)
}.

Definition M (A : Type) : Type := State → State * Settled A.

Definition ret {A} (a : A) : M A := λ s, (s, Fulfilled a).

Definition lift {A} (r : Settled A) : M A := λ s, (s, r).

(** [p.then(f)] *)
Definition then_ {A B} (p : M A) (f : A → M B) : M B :=
  λ s, match p s with
       | (s', Fulfilled a) => f a s'
       | (s', Rejected e) => (s', Rejected e)
       end.

(** [p.catch(f)] *)
Definition catch_ {A} (p : M A) (f : JsVal → M A) : M A :=
  λ s, match p s with
       | (s', Fulfilled a) => (s', Fulfilled a)
       | (s', Rejected e) => f e s'
       end.

(** A promise chain started as a statement of its own: its effects
    happen, its result is dropped, the enclosing handler returns
    [undefined]. *)
Definition detached {A} (p : M A) : M JsVal :=
  λ s, ((p s).1, Fulfilled VUndef).

(** Statements in sequence behave alike: a throw skips what follows. *)
Notation "x <- p ;; q" := (then_ p (λ x, q))
  (at level 100, p at next level, right associativity, only parsing).

(** Start a facade call in world [w] with an empty callback trace. *)
Definition run {A} (m : M A) (w : World) : State * Settled A :=
  m {| world := w; calls := [] |}.

(** Time passing between two facade calls. *)
Definition later (d : N) (w : World) : World :=
  {| docs := docs w; clock := clock w + Z.of_N d; served := served w |}.

Definition Date_now : M Z := λ s, (s, Fulfilled (clock (world s))).

Definition with_docs (f : gmap string Doc → gmap string Doc) : M unit :=
  λ s, ({| world := {| docs := f (docs (world s));
                       clock := clock (world s);
                       served := served (world s) |};
           calls := calls s |}, Fulfilled tt).

Definition read_docs : M (gmap string Doc) :=
  λ s, (s, Fulfilled (docs (world s))).

Module FirestoreStore.
Section Store.

(** The backend's answer to its [n]-th request. *)
Variable backend : nat → Reply.

(** The completion callback: what its [n]-th invocation does with its
    arguments, returning a value or throwing (a returned promise that
    rejects counts as throwing: [then] adopts it). *)
Variable fn : nat → list JsVal → Settled JsVal.

(** One request to the backend: it takes [elapsed] milliseconds and
    settles with [outcome]. *)
Definition request : M JsVal :=
  λ s, let w := world s in
       let r := backend (served w) in
       ({| world := {| docs := docs w;
                       clock := clock w + Z.of_N (elapsed r);
                       served := S (served w) |};
           calls := calls s |}, outcome r).

(** [collection(sessions).doc(key).get()]: [None] is a snapshot with
    [exists] false. *)
Definition doc_get (key : string) : M (option Doc) :=
  _ <- request ;; ds <- read_docs ;; ret (ds !! key).

(** [collection(sessions).doc(key).set(data)] *)
Definition doc_set (key : string) (data : Doc) : M JsVal :=
  ack <- request ;; _ <- with_docs (insert key data) ;; ret ack.

(** [collection(sessions).doc(key).delete()], [snapshot.ref.delete()] *)
Definition doc_delete (key : string) : M JsVal :=
  ack <- request ;; _ <- with_docs (delete key) ;; ret ack.

(** [collection(sessions).get()] *)
Definition collection_get : M (list (string * Doc)) :=
  _ <- request ;; ds <- read_docs ;; ret (map_to_list ds).

(** [collection(sessions).where('expires', '<', now).get()] *)
Definition where_expires_lt (now : Z) : M (list (string * Doc)) :=
  _ <- request ;; ds <- read_docs ;;
  ret (map_to_list (filter (λ kd : string * Doc, expires kd.2 < now) ds)).

(** [fn(args...)] *)
Definition call (args : list JsVal) : M JsVal :=
  λ s, ({| world := world s; calls := calls s ++ [args] |},
        fn (length (calls s)) args).

(** [snapshots.forEach(snapshot => remove.push(snapshot.ref.delete()))] *)
Fixpoint forEach_delete (snapshots : list (string * Doc)) (s : State)
  : State * list (Settled JsVal) :=
  match snapshots with
  | [] => (s, [])
  | snapshot :: rest =>
      let (s1, p) := doc_delete snapshot.1 s in
      let (s2, remove) := forEach_delete rest s1 in
      (s2, p :: remove)
  end.

(** [Promise.all(remove).then(fn).catch(fn);] *)
Definition settle_all (remove : list (Settled JsVal)) : M JsVal :=
  detached
    (catch_ (then_ (lift (Js.Promise_all remove)) (λ vs, call [VArr vs]))
            (λ e, call [e])).

(** [session.cookie && typeof session.cookie.maxAge === 'number'
      ? now + session.cookie.maxAge : now + reapInterval]:
    [typeof v === 'number'] holds of the values [VNum n].  The sum is
    the code's for an integer lifetime when [now], the lifetime and the
    sum are safe integers; a fractional lifetime, [NaN] or a magnitude
    of 2^53 and more, which the guard lets through, has no [VNum]. *)
Definition session_expires (now : Z) (session : JsVal) : M Z :=
  cookie <- lift (Js.member session "cookie") ;;
  if Js.truthy cookie then
    maxAge <- lift (Js.member cookie "maxAge") ;;
    match maxAge with
    | VNum n => ret (now + n)
    | _ => ret (now + reapInterval)
    end
  else ret (now + reapInterval).

(** [FirestoreStore.prototype.set]: save a keyed session. *)
Definition set (sid : string) (session : JsVal) : M JsVal :=
  let key := cleanRef sid in
  now <- Date_now ;;
  expires <- session_expires now session ;;
  let data := {| expires := expires;
                 session := session;
                 type := "connect-session" |} in
  catch_ (then_ (doc_set key data) (λ v, call [v])) (λ e, call [e]).

(** [FirestoreStore.prototype.destroy]: remove a keyed session. *)
Definition destroy (sid : string) : M JsVal :=
  let key := cleanRef sid in
  catch_ (then_ (doc_delete key) (λ v, call [v])) (λ e, call [e]).

(** [FirestoreStore.prototype.get]: fetch a keyed session. *)
Definition get (sid : string) : M JsVal :=
  let key := cleanRef sid in
  now <- Date_now ;;
  catch_
    (then_ (doc_get key) (λ snapshot,
       match snapshot with
       | None => call []
       | Some data =>
           if expires data <? now then destroy sid
           else call [VNull; session data]
       end))
    (λ e, call [e]).

(** [FirestoreStore.prototype.touch]: update a keyed session. *)
Definition touch (sid : string) (sess : JsVal) : M JsVal :=
  let key := cleanRef sid in
  catch_
    (then_ (doc_get key) (λ snapshot,
       match snapshot with
       | None => call []
       | Some data =>
           cookie <- lift (Js.member sess "cookie") ;;
           let touched :=
             VObj (Js.Object_assign ∅
                     [session data; VObj {[ "cookie" := cookie ]}]) in
           set sid touched
       end))
    (λ e, call [e]).

(** [FirestoreStore.prototype.clear]: remove all sessions. *)
Definition clear : M JsVal :=
  catch_
    (then_ collection_get (λ snapshots s,
       let (s1, remove) := forEach_delete snapshots s in
       settle_all remove s1))
    (λ e, call [e]).

(** [FirestoreStore.prototype.reap]: remove all expired sessions. *)
Definition reap : M JsVal :=
  now <- Date_now ;;
  catch_
    (then_ (where_expires_lt now) (λ snapshots s,
       let (s1, remove) := forEach_delete snapshots s in
       settle_all remove s1))
    (λ e, call [e]).

End Store.
End FirestoreStore.

(** ** The facade as a whole *)

Inductive Op : Type :=
  | OpGet (sid : string)
  | OpSet (sid : string) (session : JsVal)
  | OpDestroy (sid : string)
  | OpTouch (sid : string) (sess : JsVal)
  | OpClear
  | OpReap.

Definition exec (backend : nat → Reply) (fn : nat → list JsVal → Settled JsVal)
    (op : Op) : M JsVal :=
  match op with
  | OpGet sid => FirestoreStore.get backend fn sid
  | OpSet sid session => FirestoreStore.set backend fn sid session
  | OpDestroy sid => FirestoreStore.destroy backend fn sid
  | OpTouch sid sess => FirestoreStore.touch backend fn sid sess
  | OpClear => FirestoreStore.clear backend fn
  | OpReap => FirestoreStore.reap backend fn
  end.

(** The operations that take a session id, without the id. *)
Inductive KeyedOp : Type :=
  | KGet
  | KSet (session : JsVal)
  | KDestroy
  | KTouch (sess : JsVal).

Definition keyed (k : KeyedOp) (sid : string) : Op :=
  match k with
  | KGet => OpGet sid
  | KSet session => OpSet sid session
  | KDestroy => OpDestroy sid
  | KTouch sess => OpTouch sid sess
  end.

(** ** Notions the statements use *)

(** The six characters a document key may not contain. *)
Definition disallowed_chars : list ascii :=
  ["."; "$"; "#"; "["; "]"; "/"]%char.

(** The lifetime hint of a payload: the value of [cookie.maxAge] when
    the payload has a [cookie] whose [maxAge] is a number. *)
Definition declared_maxAge (payload : JsVal) : option Z :=
  match Js.own_props payload !! "cookie" with
  | Some cookie =>
      match Js.own_props cookie !! "maxAge" with
      | Some (VNum n) => Some n
      | _ => None
      end
  | None => None
  end.

(** The integers a number of the code holds exactly, and on which its
    addition is the addition of integers: those of magnitude below
    2^53. *)
Definition safe_integer (n : Z) : bool := Z.abs n <? 2 ^ 53.

(** A payload whose properties can be read: anything but [null] and
    [undefined]. *)
Definition readable (v : JsVal) : bool :=
  match v with
  | VUndef | VNull => false
  | _ => true
  end.

(** The backend serves request [n] successfully. *)
Definition succeeds (backend : nat → Reply) (n : nat) : bool :=
  match outcome (backend n) with
  | Fulfilled _ => true
  | Rejected _ => false
  end.

(** The callback returns normally whenever it is invoked. *)
Definition returns (fn : nat → list JsVal → Settled JsVal) : Prop :=
  ∀ n args, ∃ v, fn n args = Fulfilled v.

(** A backend without faults and without latency, acknowledging every
    write with [ack]; a callback that returns [undefined]; a callback
    that throws. *)
Definition steady (ack : JsVal) : nat → Reply :=
  λ _, {| elapsed := 0; outcome := Fulfilled ack |}.

Definition quiet : nat → list JsVal → Settled JsVal :=
  λ _ _, Fulfilled VUndef.

Definition throwing (e : JsVal) : nat → list JsVal → Settled JsVal :=
  λ _ _, Rejected e.

(** A [WriteResult] as firebase-admin fulfils [set] and [delete] with. *)
Definition writeResult (t : Z) : JsVal := VObj {[ "writeTime" := VNum t ]}.

(** The document [set] hands to the backend at time [now]. *)
Definition written (now : Z) (payload : JsVal) : Doc :=
  {| expires := now + default reapInterval (declared_maxAge payload);
     session := payload;
     type := "connect-session" |}.

(** The world in which the handler of [touch] runs once the read has
    been served. *)
Definition after_read (backend : nat → Reply) (w : World) : World :=
  {| docs := docs w;
     clock := clock w + Z.of_N (elapsed (backend (served w)));
     served := S (served w) |}.

(** The payload [touch] builds from the stored one and the incoming one. *)
Definition touched (stored sess : JsVal) : JsVal :=
  VObj (<[ "cookie" := default VUndef (Js.own_props sess !! "cookie") ]>
          (Js.own_props stored)).

(** [set] reads [session.cookie] before it builds its promise, so a
    payload that cannot be read makes the call throw at once. *)
Definition well_formed (op : Op) : bool :=
  match op with
  | OpSet _ session => readable session
  | _ => true
  end.

(** ** Concrete worlds *)

Definition empty_at (now : Z) : World :=
  {| docs := ∅; clock := now; served := 0 |}.

(** [{ user: "x", cookie: { maxAge: maxAge } }] *)
Definition user_session (maxAge : Z) : JsVal :=
  VObj (<[ "user" := VStr "x" ]>
          {[ "cookie" := VObj {[ "maxAge" := VNum maxAge ]} ]}).

(** [{ user: "x" }] *)
Definition bare_session : JsVal := VObj {[ "user" := VStr "x" ]}.

(** A collection holding one document, under the key [abc]. *)
Definition holding (d : Doc) (now : Z) : World :=
  {| docs := {[ "abc" := d ]}; clock := now; served := 0 |}.

(** A document that expires at 1999 and one that expires at 2000. *)
Definition stale_doc : Doc :=
  {| expires := 1999; session := bare_session; type := "connect-session" |}.

Definition fresh_doc : Doc :=
  {| expires := 2000; session := user_session 1000;
     type := "connect-session" |}.

(** Both of them, at time 2000. *)
Definition two_docs : World :=
  {| docs := <[ "A" := stale_doc ]> {[ "B" := fresh_doc ]};
     clock := 2000; served := 0 |}.

(** A collection whose one document sits under the key [a_b], the
    normal form of the session id [a.b]. *)
Definition aliased : World :=
  {| docs := {[ "a_b" := fresh_doc ]}; clock := 1500; served := 0 |}.

(** [set("abc", {user:"x", cookie:{maxAge:60000}})] at time 1000, then
    [get("abc")] one second later and sixty-one seconds later. *)
Definition after_set : World :=
  world (run (FirestoreStore.set (steady (writeResult 1000)) quiet "abc"
                (user_session 60000)) (empty_at 1000)).1.

(** ** The constructor *)

(** A property of the options object: a plain value or a function. *)
Inductive Option_ : Type :=
  | Value (v : JsVal)
  | Fun (f : nat → list JsVal → Settled JsVal).

(** What the constructor looks at in [args.database]: whether the
    object has a [collection] property, or else a [firestore] method,
    whose result it takes without looking at it. *)
Inductive Database : Type :=
  | NoDatabase
  | Firestore (project : string)
  | App (firestore : Database)
  | Other (v : JsVal).

(** The options object; a property that is not given is
    [Value VUndef]. *)
Record Options : Type := {
  opt_database : Database;
  opt_sessions : JsVal;
  opt_reapInterval : Option_;
  opt_reapCallback : Option_
}.

(** The store the constructor builds, with the timer it has started:
    its period and the callback every pass of [reap] reports to. *)
Record Store : Type := {
  db : Database;
  sessions : string;
  store_reapInterval : Option_;
  store_reapCallback : Option_;
  timer : option (Z * (nat → list JsVal → Settled JsVal))
}.

(** The default callback returns its receiver. *)
Definition reapCallback (this : JsVal)
  : nat → list JsVal → Settled JsVal :=
  λ _ _, Fulfilled this.

Definition option_truthy (o : Option_) : bool :=
  match o with
  | Value v => Js.truthy v
  | Fun _ => true
  end.

(** [a || b] *)
Definition or_else (a b : Option_) : Option_ :=
  if option_truthy a then a else b.

(** [new FirestoreStore(args)]; [this] is the receiver the default
    callback will be invoked on.  The call of the base constructor
    [Store.call(args)] belongs to the session middleware and is left
    out; [setInterval] is recorded as the [timer] of the store. *)
Definition FirestoreStore_new (this : JsVal) (args : Options)
  : Settled Store :=
  let db := opt_database args in
  let sessions :=
    match opt_sessions args with
    | VStr s => s
    | _ => "sessions"
    end in
  match
    match db with
    | Firestore _ => Fulfilled db
    | App firestore => Fulfilled firestore
    | NoDatabase | Other _ => Rejected (VErr "Invalid Firestore reference")
    end
  with
  | Rejected e => Rejected e
  | Fulfilled this_db =>
      let this_reapInterval :=
        or_else (opt_reapInterval args) (Value (VNum reapInterval)) in
      let this_reapCallback :=
        or_else (opt_reapCallback args) (Fun (reapCallback this)) in
      Fulfilled
        {| db := this_db;
           sessions := cleanRef sessions;
           store_reapInterval := this_reapInterval;
           store_reapCallback := this_reapCallback;
           timer :=
             match this_reapInterval, this_reapCallback with
             | Value (VNum period), Fun callback => Some (period, callback)
             | _, _ => None
             end |}
  end.

(** The operations that read or delete and never write a document. *)
Definition removes_only (op : Op) : bool :=
  match op with
  | OpSet _ _ | OpTouch _ _ => false
  | _ => true
  end.

(** A backend that rejects its [n]-th request with [e] and serves every
    other one. *)
Definition failing_at (n : nat) (e ack : JsVal) : nat → Reply :=
  λ m, {| elapsed := 0;
          outcome := if Nat.eqb m n then Rejected e else Fulfilled ack |}.

(** * Properties *)

(** ** The key normaliser *)

Lemma disallowed_spec (c : ascii) :
  disallowed c = bool_decide (c ∈ disallowed_chars).
Proof.
  destruct c as [[] [] [] [] [] [] [] []]; vm_compute; reflexivity.
Qed.

Lemma cleanRef_length str : String.length (cleanRef str) = String.length str.
Proof. induction str as [|c rest IH]; simpl; congruence. Qed.

Lemma cleanRef_get str i :
  String.get i (cleanRef str) = replace_char <$> String.get i str.
Proof.
  revert i. induction str as [|c rest IH]; intros [|i]; simpl; auto.
Qed.

Lemma replace_char_allowed c : disallowed (replace_char c) = false.
Proof.
  unfold replace_char. destruct (disallowed c) eqn:E; [reflexivity | exact E].
Qed.

Lemma replace_char_idem c : replace_char (replace_char c) = replace_char c.
Proof.
  unfold replace_char at 1. by rewrite replace_char_allowed.
Qed.

Lemma cleanRef_idem str : cleanRef (cleanRef str) = cleanRef str.
Proof.
  induction str as [|c rest IH]; simpl; [done|].
  by rewrite replace_char_idem, IH.
Qed.

(** C7: [cleanRef] is a total function that keeps the length of its
    input, puts [_] at every position that holds one of [. $ # [ ] /]
    and leaves every other position as it is, so that its output holds
    none of the six characters. *)
Theorem cleanRef_replaces_disallowed (str : string) :
  String.length (cleanRef str) = String.length str
  ∧ (∀ i, String.get i (cleanRef str)
          = (λ c, if bool_decide (c ∈ disallowed_chars) then "_"%char else c)
              <$> String.get i str)
  ∧ (∀ i c, String.get i (cleanRef str) = Some c → c ∉ disallowed_chars).
Proof.
  split; [apply cleanRef_length|]. split.
  - intros i. rewrite cleanRef_get.
    destruct (String.get i str) as [c|]; simpl; [|done].
    unfold replace_char. by rewrite disallowed_spec.
  - intros i c. rewrite cleanRef_get.
    destruct (String.get i str) as [c'|]; simpl; [|done].
    intros [= <-] Hin.
    pose proof (replace_char_allowed c') as Hc.
    rewrite disallowed_spec in Hc. by apply bool_decide_eq_false in Hc.
Qed.

(** ** Expiry policy *)

Ltac unfold_store :=
  cbv [run exec keyed
       FirestoreStore.get FirestoreStore.set FirestoreStore.destroy
       FirestoreStore.touch FirestoreStore.clear FirestoreStore.reap
       FirestoreStore.settle_all FirestoreStore.doc_get
       FirestoreStore.doc_set FirestoreStore.doc_delete
       FirestoreStore.collection_get FirestoreStore.where_expires_lt
       FirestoreStore.request FirestoreStore.call
       with_docs read_docs ret lift then_ catch_ detached Date_now];
  simpl.

Lemma falsy_no_props v k : Js.truthy v = false → Js.own_props v !! k = None.
Proof.
  destruct v; simpl; try done.
  intros H. apply negb_false_iff, String.eqb_eq in H. by subst.
Qed.

Lemma member_readable v k :
  readable v = true →
  Js.member v k = Fulfilled (default VUndef (Js.own_props v !! k)).
Proof. by destruct v. Qed.

Lemma succeeds_outcome backend n :
  succeeds backend n = true → ∃ v, outcome (backend n) = Fulfilled v.
Proof. unfold succeeds. destruct (outcome (backend n)); [eauto | done]. Qed.

(** On a readable payload the expression of [set] never throws and
    follows the lifetime hint. *)
Lemma session_expires_spec now payload s :
  readable payload = true →
  FirestoreStore.session_expires now payload s =
    (s, Fulfilled (now + default reapInterval (declared_maxAge payload))).
Proof.
  intros Hr. unfold FirestoreStore.session_expires, declared_maxAge.
  unfold then_ at 1, lift at 1. rewrite member_readable by done.
  destruct (Js.own_props payload !! "cookie") as [c|]; simpl; [|done].
  destruct (Js.truthy c) eqn:Ht.
  - unfold then_, lift.
    destruct c; simpl in *; try done;
      match goal with
      | |- context [ ?m !! "maxAge" ] => by destruct (m !! "maxAge") as [[]|]
      end.
  - by rewrite (falsy_no_props c "maxAge" Ht).
Qed.

Lemma session_expires_unreadable now payload s :
  payload = VUndef ∨ payload = VNull →
  FirestoreStore.session_expires now payload s = (s, Rejected (VErr "TypeError")).
Proof. by intros [-> | ->]. Qed.

Lemma Object_assign_cookie stored cookie :
  Js.Object_assign ∅ [stored; VObj {[ "cookie" := cookie ]}]
  = <[ "cookie" := cookie ]> (Js.own_props stored).
Proof.
  unfold Js.Object_assign; simpl.
  by rewrite (right_id_L ∅ (∪)), insert_union_singleton_l.
Qed.

Lemma declared_maxAge_merged stored cookie :
  declared_maxAge (VObj (<[ "cookie" := cookie ]> stored))
  = declared_maxAge (VObj {[ "cookie" := cookie ]}).
Proof.
  unfold declared_maxAge; simpl. by rewrite lookup_insert_eq, lookup_singleton_eq.
Qed.

Lemma declared_maxAge_touched stored sess :
  declared_maxAge (touched stored sess) = declared_maxAge sess.
Proof.
  unfold touched. rewrite declared_maxAge_merged.
  unfold declared_maxAge; simpl. rewrite lookup_singleton_eq.
  by destruct (Js.own_props sess !! "cookie").
Qed.

(** ** What [set] and [touch] write *)

Lemma set_docs backend fn sid payload w :
  readable payload = true → succeeds backend (served w) = true →
  docs (world (run (FirestoreStore.set backend fn sid payload) w).1)
  = <[ cleanRef sid := written (clock w) payload ]> (docs w).
Proof.
  intros Hr [ack Hack]%succeeds_outcome.
  unfold run, FirestoreStore.set, then_ at 1 2, Date_now.
  rewrite session_expires_spec by done.
  unfold_store. rewrite Hack; simpl.
  by destruct (fn _ _).
Qed.

Lemma set_first_call backend fn sid payload w ack :
  readable payload = true → outcome (backend (served w)) = Fulfilled ack →
  calls (run (FirestoreStore.set backend fn sid payload) w).1 !! 0%nat
  = Some [ack].
Proof.
  intros Hr Hack.
  unfold run, FirestoreStore.set, then_ at 1 2, Date_now.
  rewrite session_expires_spec by done.
  unfold_store. rewrite Hack; simpl.
  by destruct (fn _ _).
Qed.

Lemma touch_found backend fn sid sess w d :
  docs w !! cleanRef sid = Some d →
  readable sess = true → succeeds backend (served w) = true →
  run (FirestoreStore.touch backend fn sid sess) w
  = catch_ (FirestoreStore.set backend fn sid (touched (session d) sess))
           (λ e, FirestoreStore.call fn [e])
           {| world := after_read backend w; calls := [] |}.
Proof.
  intros Hd Hr [snap Hsnap]%succeeds_outcome.
  unfold run, FirestoreStore.touch, catch_ at 1, then_ at 1.
  unfold FirestoreStore.doc_get, then_ at 1, FirestoreStore.request.
  cbn [world served]. rewrite Hsnap.
  unfold then_ at 1, read_docs, ret. cbn [world docs]. rewrite Hd.
  unfold then_ at 1, lift. rewrite member_readable by done.
  rewrite Object_assign_cookie. reflexivity.
Qed.

Lemma touch_docs backend fn sid sess w d :
  docs w !! cleanRef sid = Some d →
  readable sess = true →
  succeeds backend (served w) = true → succeeds backend (S (served w)) = true →
  docs (world (run (FirestoreStore.touch backend fn sid sess) w).1)
  = <[ cleanRef sid :=
         written (clock (after_read backend w)) (touched (session d) sess) ]>
      (docs w).
Proof.
  intros Hd Hr H0 H1. rewrite (touch_found _ _ _ _ _ d) by done.
  pose proof (set_docs backend fn sid (touched (session d) sess)
                (after_read backend w)) as Hset.
  unfold run in Hset. unfold catch_.
  destruct (FirestoreStore.set _ _ _ _ _) as [s [v|e]]; simpl in *.
  - by apply Hset.
  - unfold FirestoreStore.call; simpl. by apply Hset.
Qed.

Lemma touch_absent backend fn sid sess w :
  docs w !! cleanRef sid = None →
  docs (world (run (FirestoreStore.touch backend fn sid sess) w).1) = docs w.
Proof.
  intros Hd. unfold_store.
  destruct (outcome (backend (served w))); simpl.
  - rewrite Hd; simpl. by destruct (fn _ _).
  - done.
Qed.

Lemma touch_absent_first_call backend fn sid sess w :
  docs w !! cleanRef sid = None → succeeds backend (served w) = true →
  calls (run (FirestoreStore.touch backend fn sid sess) w).1 !! 0%nat = Some [].
Proof.
  intros Hd [snap Hsnap]%succeeds_outcome. unfold_store. rewrite Hsnap; simpl.
  rewrite Hd; simpl. by destruct (fn _ _).
Qed.

(** ** What [get] reports *)

Lemma get_absent backend fn sid w :
  docs w !! cleanRef sid = None → succeeds backend (served w) = true →
  calls (run (FirestoreStore.get backend fn sid) w).1 !! 0%nat = Some []
  ∧ docs (world (run (FirestoreStore.get backend fn sid) w).1) = docs w.
Proof.
  intros Hd [snap Hsnap]%succeeds_outcome. unfold_store. rewrite Hsnap; simpl.
  rewrite Hd; simpl. by destruct (fn _ _).
Qed.

Lemma get_valid backend fn sid w d :
  docs w !! cleanRef sid = Some d → clock w ≤ expires d →
  succeeds backend (served w) = true →
  calls (run (FirestoreStore.get backend fn sid) w).1 !! 0%nat
  = Some [VNull; session d]
  ∧ docs (world (run (FirestoreStore.get backend fn sid) w).1) = docs w.
Proof.
  intros Hd Hle [snap Hsnap]%succeeds_outcome.
  unfold_store. rewrite Hsnap; simpl. rewrite Hd; simpl.
  destruct (Z.ltb_spec (expires d) (clock w)) as [Hlt|_]; [lia|]; simpl.
  by destruct (fn _ _).
Qed.

Lemma get_expired backend fn sid w d ack :
  docs w !! cleanRef sid = Some d → expires d < clock w →
  succeeds backend (served w) = true →
  outcome (backend (S (served w))) = Fulfilled ack →
  calls (run (FirestoreStore.get backend fn sid) w).1 !! 0%nat = Some [ack]
  ∧ docs (world (run (FirestoreStore.get backend fn sid) w).1)
    = delete (cleanRef sid) (docs w).
Proof.
  intros Hd Hlt [snap Hsnap]%succeeds_outcome Hack.
  unfold_store. rewrite Hsnap; simpl. rewrite Hd; simpl.
  destruct (Z.ltb_spec (expires d) (clock w)) as [_|Hle]; [|lia]; simpl.
  rewrite Hack; simpl.
  destruct (fn 0%nat [ack]); simpl; [done|].
  by destruct (fn 1%nat _).
Qed.

(** ** How often the callback is invoked *)

Arguments FirestoreStore.session_expires : simpl never.
Arguments Js.Object_assign : simpl never.
Arguments Js.member : simpl never.

Lemma forEach_delete_calls backend snapshots s :
  calls (FirestoreStore.forEach_delete backend snapshots s).1 = calls s.
Proof.
  revert s. induction snapshots as [|snapshot rest IH]; intros s; simpl; [done|].
  destruct (FirestoreStore.doc_delete backend snapshot.1 s) as [s1 p] eqn:E1.
  specialize (IH s1).
  destruct (FirestoreStore.forEach_delete backend rest s1) as [s2 remove].
  simpl in *. rewrite IH.
  revert E1. unfold_store. by destruct (outcome _); intros [= <- _].
Qed.

Ltac split_calls backend fn :=
  repeat (simpl;
    match goal with
    | |- context [outcome (backend ?n)] =>
        destruct (outcome (backend n)) eqn:?
    | |- context [fn ?n ?a] => destruct (fn n a) eqn:?
    | |- context [docs ?w !! ?k] => destruct (docs w !! k) eqn:?
    | |- context [Z.ltb ?a ?b] => destruct (Z.ltb a b) eqn:?
    | |- context [Js.member ?v ?k] => destruct (Js.member v k) eqn:?
    | |- context [Js.Promise_all ?ps] => destruct (Js.Promise_all ps) eqn:?
    end).

Lemma exec_calls_bounds backend fn op w :
  well_formed op = true →
  (1 ≤ length (calls (run (exec backend fn op) w).1) ≤ 3)%nat.
Proof.
  destruct op as [sid|sid payload|sid|sid sess| |]; simpl; intros Hwf.
  - unfold_store. split_calls backend fn; simpl; lia.
  - unfold_store. rewrite session_expires_spec by done.
    split_calls backend fn; simpl; lia.
  - unfold_store. split_calls backend fn; simpl; lia.
  - unfold_store. split_calls backend fn; simpl; try lia.
    all: rewrite session_expires_spec by done.
    all: split_calls backend fn; simpl; lia.
  - unfold_store. destruct (outcome (backend (served w))); simpl.
    + match goal with
      | |- context [FirestoreStore.forEach_delete ?b ?l ?s] =>
          pose proof (forEach_delete_calls b l s) as Hc;
          destruct (FirestoreStore.forEach_delete b l s) as [[w1 c1] remove]
      end.
      simpl in Hc; subst c1. split_calls backend fn; simpl; lia.
    + split_calls backend fn; simpl; lia.
  - unfold_store. destruct (outcome (backend (served w))); simpl.
    + match goal with
      | |- context [FirestoreStore.forEach_delete ?b ?l ?s] =>
          pose proof (forEach_delete_calls b l s) as Hc;
          destruct (FirestoreStore.forEach_delete b l s) as [[w1 c1] remove]
      end.
      simpl in Hc; subst c1. split_calls backend fn; simpl; lia.
    + split_calls backend fn; simpl; lia.
Qed.

Ltac returns_normally fn Hret :=
  try (exfalso;
       match goal with
       | H : fn ?n ?a = Rejected _ |- _ =>
           destruct (Hret n a) as [? ?]; congruence
       end).

Lemma exec_calls_once backend fn op w :
  well_formed op = true → returns fn →
  length (calls (run (exec backend fn op) w).1) = 1%nat.
Proof.
  destruct op as [sid|sid payload|sid|sid sess| |]; simpl; intros Hwf Hret.
  - unfold_store. split_calls backend fn; simpl; returns_normally fn Hret; done.
  - unfold_store. rewrite session_expires_spec by done.
    split_calls backend fn; simpl; returns_normally fn Hret; done.
  - unfold_store. split_calls backend fn; simpl; returns_normally fn Hret; done.
  - unfold_store. split_calls backend fn; simpl; returns_normally fn Hret;
      try done.
    all: rewrite session_expires_spec by done.
    all: split_calls backend fn; simpl; returns_normally fn Hret; done.
  - unfold_store. destruct (outcome (backend (served w))); simpl.
    + match goal with
      | |- context [FirestoreStore.forEach_delete ?b ?l ?s] =>
          pose proof (forEach_delete_calls b l s) as Hc;
          destruct (FirestoreStore.forEach_delete b l s) as [[w1 c1] remove]
      end.
      simpl in Hc; subst c1.
      split_calls backend fn; simpl; returns_normally fn Hret; done.
    + split_calls backend fn; simpl; returns_normally fn Hret; done.
  - unfold_store. destruct (outcome (backend (served w))); simpl.
    + match goal with
      | |- context [FirestoreStore.forEach_delete ?b ?l ?s] =>
          pose proof (forEach_delete_calls b l s) as Hc;
          destruct (FirestoreStore.forEach_delete b l s) as [[w1 c1] remove]
      end.
      simpl in Hc; subst c1.
      split_calls backend fn; simpl; returns_normally fn Hret; done.
    + split_calls backend fn; simpl; returns_normally fn Hret; done.
Qed.

Ltac rethrown :=
  let H := fresh "H" in
  intros H;
  match goal with
  | |- ∃ prev e, _ !! ?n = _ ∧ _ =>
      destruct n as [|[|[|n]]]; simpl in H; try discriminate;
      injection H as <-;
      eexists _, _; (split; [reflexivity | split; [eassumption | reflexivity]])
  end.

(** Every invocation after the first is the [catch] of a throw: its only
    argument is what the invocation before it threw. *)
Lemma exec_calls_rethrown backend fn op w n args :
  well_formed op = true →
  calls (run (exec backend fn op) w).1 !! S n = Some args →
  ∃ prev e,
    calls (run (exec backend fn op) w).1 !! n = Some prev
    ∧ fn n prev = Rejected e
    ∧ args = [e].
Proof.
  destruct op as [sid|sid payload|sid|sid sess| |]; simpl; intros Hwf.
  - unfold_store. split_calls backend fn; simpl; rethrown.
  - unfold_store. rewrite session_expires_spec by done.
    split_calls backend fn; simpl; rethrown.
  - unfold_store. split_calls backend fn; simpl; rethrown.
  - unfold_store. split_calls backend fn; simpl; try rethrown.
    all: rewrite session_expires_spec by done.
    all: split_calls backend fn; simpl; rethrown.
  - unfold_store. destruct (outcome (backend (served w))); simpl.
    + match goal with
      | |- context [FirestoreStore.forEach_delete ?b ?l ?s] =>
          pose proof (forEach_delete_calls b l s) as Hc;
          destruct (FirestoreStore.forEach_delete b l s) as [[w1 c1] remove]
      end.
      simpl in Hc; subst c1. split_calls backend fn; simpl; rethrown.
    + split_calls backend fn; simpl; rethrown.
  - unfold_store. destruct (outcome (backend (served w))); simpl.
    + match goal with
      | |- context [FirestoreStore.forEach_delete ?b ?l ?s] =>
          pose proof (forEach_delete_calls b l s) as Hc;
          destruct (FirestoreStore.forEach_delete b l s) as [[w1 c1] remove]
      end.
      simpl in Hc; subst c1. split_calls backend fn; simpl; rethrown.
    + split_calls backend fn; simpl; rethrown.
Qed.

Lemma singleton_trace (trace : list (list JsVal)) args :
  length trace = 1%nat → trace !! 0%nat = Some args → trace = [args].
Proof.
  destruct trace as [|a [|b rest]]; simpl; try done.
  by intros _ [= ->].
Qed.

(** ** Bulk deletion *)

Lemma doc_delete_docs backend key s :
  docs (world (FirestoreStore.doc_delete backend key s).1)
  = if succeeds backend (served (world s))
    then delete key (docs (world s)) else docs (world s).
Proof.
  unfold succeeds. unfold_store. by destruct (outcome _).
Qed.

Lemma doc_delete_served backend key s :
  served (world (FirestoreStore.doc_delete backend key s).1)
  = S (served (world s)).
Proof. unfold_store. by destruct (outcome _). Qed.

(** Deleting the listed documents touches no other key, and a listed
    key is either gone or as it was. *)
Lemma forEach_delete_frame backend snapshots s k :
  (k ∉ snapshots.*1 →
   docs (world (FirestoreStore.forEach_delete backend snapshots s).1) !! k
   = docs (world s) !! k)
  ∧ (docs (world (FirestoreStore.forEach_delete backend snapshots s).1) !! k
     = None
     ∨ docs (world (FirestoreStore.forEach_delete backend snapshots s).1) !! k
       = docs (world s) !! k).
Proof.
  revert s. induction snapshots as [|[key d] rest IH]; intros s; simpl.
  - by split; [|right].
  - pose proof (doc_delete_docs backend key s) as Hdel.
    destruct (FirestoreStore.doc_delete backend key s) as [s1 p].
    specialize (IH s1).
    destruct (FirestoreStore.forEach_delete backend rest s1) as [s2 remove].
    simpl in *. destruct IH as [IHout IHin]. split.
    + intros Hk. apply not_elem_of_cons in Hk as [Hne Hk].
      rewrite (IHout Hk), Hdel.
      destruct (succeeds _ _); [by rewrite lookup_delete_ne|done].
    + destruct IHin as [-> | ->]; [by left|]. rewrite Hdel.
      destruct (succeeds _ _); [|by right].
      destruct (decide (key = k)) as [->|Hne].
      * left. apply lookup_delete_eq.
      * right. by rewrite lookup_delete_ne.
Qed.

(** When the backend serves every request, every listed key is gone. *)
Lemma forEach_delete_complete backend snapshots s k :
  (∀ n, succeeds backend n = true) → k ∈ snapshots.*1 →
  docs (world (FirestoreStore.forEach_delete backend snapshots s).1) !! k = None.
Proof.
  intros Hok. revert s.
  induction snapshots as [|[key d] rest IH]; intros s Hk; simpl in *.
  - by apply elem_of_nil in Hk.
  - pose proof (doc_delete_docs backend key s) as Hdel.
    rewrite Hok in Hdel.
    destruct (FirestoreStore.doc_delete backend key s) as [s1 p].
    pose proof (forEach_delete_frame backend rest s1 k) as [Hout _].
    specialize (IH s1).
    destruct (FirestoreStore.forEach_delete backend rest s1) as [s2 remove].
    simpl in *.
    destruct (decide (k ∈ rest.*1)) as [Hin|Hnin]; [by apply IH|].
    apply elem_of_cons in Hk as [-> | Hin]; [|done].
    rewrite (Hout Hnin), Hdel. apply lookup_delete_eq.
Qed.

Lemma elem_of_expired_keys (m : gmap string Doc) now k :
  k ∈ (map_to_list (filter (λ kd : string * Doc, expires kd.2 < now) m)).*1
  ↔ ∃ d, m !! k = Some d ∧ expires d < now.
Proof.
  rewrite list_elem_of_fmap. split.
  - intros ([k' d] & -> & Hin). apply elem_of_map_to_list in Hin.
    apply map_lookup_filter_Some in Hin as [Hm Hlt]. by exists d.
  - intros (d & Hm & Hlt). exists (k, d). split; [done|].
    apply elem_of_map_to_list. by apply map_lookup_filter_Some.
Qed.

(** The collection after [reap]: untouched when the query fails,
    otherwise what deleting the documents listed by the query leaves. *)
Lemma reap_docs backend fn w :
  docs (world (run (FirestoreStore.reap backend fn) w).1)
  = if succeeds backend (served w)
    then docs (world (FirestoreStore.forEach_delete backend
           (map_to_list
              (filter (λ kd : string * Doc, expires kd.2 < clock w) (docs w)))
           {| world := after_read backend w; calls := [] |}).1)
    else docs w.
Proof.
  unfold succeeds, after_read. unfold_store.
  destruct (outcome (backend (served w))); simpl.
  - destruct (FirestoreStore.forEach_delete _ _ _) as [s1 remove]; simpl.
    destruct (Js.Promise_all remove); simpl; by repeat destruct (fn _ _).
  - done.
Qed.

(** ** The scenario of the specification *)

Example get_within_lifetime :
  calls (run (FirestoreStore.get (steady (writeResult 1000)) quiet "abc")
           (later 1000 after_set)).1
  = [[VNull; user_session 60000]].
Proof. vm_compute. reflexivity. Qed.

Example get_after_lifetime :
  docs (world (run (FirestoreStore.get (steady (writeResult 1000)) quiet "abc")
                 (later 61000 after_set)).1) = ∅
  ∧ calls (run (FirestoreStore.get (steady (writeResult 1000)) quiet "abc")
             (later 61000 after_set)).1
    = [[writeResult 1000]].
Proof. split; vm_compute; reflexivity. Qed.

Example get_expired_throwing_callback :
  calls (run (FirestoreStore.get (steady (writeResult 1000))
                (throwing (VErr "Error")) "abc") (later 61000 after_set)).1
  = [[writeResult 1000]; [VErr "Error"]; [VErr "Error"]].
Proof. vm_compute. reflexivity. Qed.

Example set_unreadable_throws :
  run (FirestoreStore.set (steady (writeResult 1000)) quiet "abc" VNull)
    (empty_at 1000)
  = ({| world := empty_at 1000; calls := [] |}, Rejected (VErr "TypeError")).
Proof. reflexivity. Qed.

Example cleanRef_example : cleanRef "a.b$c#d[e]f/g" = "a_b_c_d_e_f_g".
Proof. reflexivity. Qed.

(** * The claims *)

(** C3: when the payload can be read and the backend accepts the write,
    [set sid payload] leaves the collection with exactly one change:
    under the key [cleanRef sid] stands the record
    [{ expires, session: payload, type: "connect-session" }], where
    [expires] is [now + payload.cookie.maxAge] if that is a number and
    [now + 21600000] otherwise. *)
Theorem set_persists_record backend fn sid payload w :
  readable payload = true → succeeds backend (served w) = true →
  docs (world (run (FirestoreStore.set backend fn sid payload) w).1)
  = <[ cleanRef sid :=
         {| expires := match declared_maxAge payload with
                       | Some maxAge => clock w + maxAge
                       | None => clock w + 21600000
                       end;
            session := payload;
            type := "connect-session" |} ]> (docs w).
Proof.
  intros Hr Hok. rewrite set_docs by done. unfold written.
  by destruct (declared_maxAge payload).
Qed.

Lemma set_persists_record_witness :
  docs (world (run (FirestoreStore.set (steady (writeResult 1000)) quiet
                      "a.b" (user_session 60000)) (empty_at 1000)).1)
  = {[ "a_b" := {| expires := 61000;
                   session := user_session 60000;
                   type := "connect-session" |} ]}.
Proof.
  exact (set_persists_record (steady (writeResult 1000)) quiet "a.b"
           (user_session 60000) (empty_at 1000) eq_refl eq_refl).
Defined.

(** C6, as stated, fails: a payload with [cookie.maxAge = -1] written at
    time 1000 is stored with [expires = 999], which is not after 1000. *)
Lemma set_negative_maxAge_not_in_future :
  (expires <$>
     docs (world (run (FirestoreStore.set (steady (writeResult 1000)) quiet
                         "abc" (user_session (-1))) (empty_at 1000)).1)
       !! "abc") = Some 999
  ∧ ¬ (clock (empty_at 1000) < 999).
Proof. split; [vm_compute; reflexivity | simpl; lia]. Qed.

(** C6, amended: take a payload whose lifetime, its numeric
    [cookie.maxAge] or 21600000 without one, is a safe integer.  The
    record [set] writes at a clock [now], with [now] and [now + lifetime]
    safe integers, carries a payload of that lifetime and
    [expires = now + lifetime]; so does the record [touch] writes for
    that incoming payload, [now] being the clock after the read.  Hence
    [expires] is after [now] exactly when the lifetime is positive, which
    it is whenever no numeric [maxAge] is given. *)
Theorem written_expires_is_now_plus_lifetime backend fn sid payload w :
  readable payload = true → succeeds backend (served w) = true →
  let lifetime := default 21600000 (declared_maxAge payload) in
  safe_integer lifetime = true →
  (safe_integer (clock w) = true →
   safe_integer (clock w + lifetime) = true →
   ∃ d,
     docs (world (run (FirestoreStore.set backend fn sid payload) w).1)
       !! cleanRef sid = Some d
     ∧ default 21600000 (declared_maxAge (session d)) = lifetime
     ∧ expires d = clock w + lifetime
     ∧ (clock w < expires d ↔ 0 < lifetime))
  ∧ (∀ d0, docs w !! cleanRef sid = Some d0 →
       succeeds backend (S (served w)) = true →
       safe_integer (clock (after_read backend w)) = true →
       safe_integer (clock (after_read backend w) + lifetime) = true →
       ∃ d,
         docs (world (run (FirestoreStore.touch backend fn sid payload) w).1)
           !! cleanRef sid = Some d
         ∧ default 21600000 (declared_maxAge (session d)) = lifetime
         ∧ expires d = clock (after_read backend w) + lifetime
         ∧ (clock (after_read backend w) < expires d ↔ 0 < lifetime))
  ∧ (declared_maxAge payload = None → 0 < lifetime).
Proof.
  intros Hr Hok lifetime Hsafe. split; [|split].
  - intros _ _. exists (written (clock w) payload). rewrite set_docs by done.
    rewrite lookup_insert_eq. unfold written, reapInterval; simpl.
    fold lifetime. repeat split; lia.
  - intros d0 Hd0 Hok' _ _.
    exists (written (clock (after_read backend w)) (touched (session d0) payload)).
    rewrite (touch_docs _ _ _ _ _ d0) by done.
    rewrite lookup_insert_eq. unfold written, reapInterval.
    cbn [expires session]. rewrite declared_maxAge_touched. fold lifetime.
    repeat split; lia.
  - unfold lifetime. by intros ->.
Qed.

Lemma written_expires_is_now_plus_lifetime_witness :
  (∃ d,
      docs (world (run (FirestoreStore.set (steady (writeResult 1500)) quiet
                          "abc" (user_session 60000))
                     (holding fresh_doc 1500)).1)
        !! cleanRef "abc" = Some d
      ∧ default 21600000 (declared_maxAge (session d)) = 60000
      ∧ expires d = 1500 + 60000
      ∧ (1500 < expires d ↔ 0 < 60000))
  ∧ (∃ d,
       docs (world (run (FirestoreStore.touch (steady (writeResult 1500)) quiet
                           "abc" (user_session 60000))
                      (holding fresh_doc 1500)).1)
         !! cleanRef "abc" = Some d
       ∧ default 21600000 (declared_maxAge (session d)) = 60000
       ∧ expires d = 1500 + 60000
       ∧ (1500 < expires d ↔ 0 < 60000)).
Proof.
  pose proof (written_expires_is_now_plus_lifetime
                (steady (writeResult 1500)) quiet "abc" (user_session 60000)
                (holding fresh_doc 1500) eq_refl eq_refl eq_refl)
    as (Hset & Htouch & _).
  split.
  - exact (Hset eq_refl eq_refl).
  - exact (Htouch fresh_doc eq_refl eq_refl eq_refl eq_refl).
Defined.

(** C2: once the backend has served the read, [touch sid sess] on a key
    that holds a record writes back the stored payload with its [cookie]
    property replaced by [sess.cookie] and nothing else changed, under an
    [expires] recomputed from that merged payload at the time of the
    write; on a key that holds no record it invokes the callback without
    arguments and leaves the collection as it was. *)
Theorem touch_merges_cookie backend fn sid sess w :
  succeeds backend (served w) = true →
  match docs w !! cleanRef sid with
  | Some d =>
      readable sess = true → succeeds backend (S (served w)) = true →
      let now := clock w + Z.of_N (elapsed (backend (served w))) in
      let merged :=
        VObj (<[ "cookie" := default VUndef (Js.own_props sess !! "cookie") ]>
                (Js.own_props (session d))) in
      docs (world (run (FirestoreStore.touch backend fn sid sess) w).1)
      = <[ cleanRef sid :=
             {| expires := match declared_maxAge merged with
                           | Some maxAge => now + maxAge
                           | None => now + 21600000
                           end;
                session := merged;
                type := "connect-session" |} ]> (docs w)
  | None =>
      calls (run (FirestoreStore.touch backend fn sid sess) w).1 !! 0%nat
      = Some []
      ∧ docs (world (run (FirestoreStore.touch backend fn sid sess) w).1)
        = docs w
  end.
Proof.
  intros Hok. destruct (docs w !! cleanRef sid) as [d|] eqn:Hd.
  - intros Hr Hok' now merged.
    rewrite (touch_docs _ _ _ _ _ d) by done.
    unfold written, touched, after_read; simpl. fold merged. fold now.
    by destruct (declared_maxAge merged).
  - split; [by apply touch_absent_first_call | by apply touch_absent].
Qed.

(** [set(sid, {data:1, cookie:{maxAge:1000}})], then
    [touch(sid, {cookie:{maxAge:5000}})]. *)
Lemma touch_merges_cookie_witness :
  docs (world (run (FirestoreStore.touch (steady (writeResult 2000)) quiet "abc"
                      (VObj {[ "cookie" := VObj {[ "maxAge" := VNum 5000 ]} ]}))
                 (holding {| expires := 2000;
                             session :=
                               VObj (<[ "data" := VNum 1 ]>
                                       {[ "cookie" :=
                                            VObj {[ "maxAge" := VNum 1000 ]} ]});
                             type := "connect-session" |} 1500)).1)
  = {[ "abc" := {| expires := 6500;
                   session :=
                     VObj (<[ "data" := VNum 1 ]>
                             {[ "cookie" := VObj {[ "maxAge" := VNum 5000 ]} ]});
                   type := "connect-session" |} ]}.
Proof.
  exact (touch_merges_cookie (steady (writeResult 2000)) quiet "abc"
           (VObj {[ "cookie" := VObj {[ "maxAge" := VNum 5000 ]} ]})
           (holding {| expires := 2000;
                       session :=
                         VObj (<[ "data" := VNum 1 ]>
                                 {[ "cookie" :=
                                      VObj {[ "maxAge" := VNum 1000 ]} ]});
                       type := "connect-session" |} 1500)
           eq_refl eq_refl eq_refl).
Defined.

(** C10: [touch sid sess] with a [sess] that has no [cookie] property,
    on a key that holds a record, stores the old payload with [cookie]
    set to [undefined] (whatever cookie was stored is lost) and an
    [expires] of the write-time clock plus 21600000. *)
Theorem touch_without_cookie_resets backend fn sid sess w d :
  docs w !! cleanRef sid = Some d →
  readable sess = true → Js.own_props sess !! "cookie" = None →
  succeeds backend (served w) = true →
  succeeds backend (S (served w)) = true →
  ∃ d',
    docs (world (run (FirestoreStore.touch backend fn sid sess) w).1)
      !! cleanRef sid = Some d'
    ∧ session d' = VObj (<[ "cookie" := VUndef ]> (Js.own_props (session d)))
    ∧ Js.member (session d') "cookie" = Fulfilled VUndef
    ∧ (∀ c, Js.own_props (session d) !! "cookie" = Some c → c ≠ VUndef →
         Js.member (session d') "cookie" ≠ Fulfilled c)
    ∧ expires d'
      = clock w + Z.of_N (elapsed (backend (served w))) + 21600000.
Proof.
  intros Hd Hr Hnone Hok Hok'.
  exists (written (clock (after_read backend w)) (touched (session d) sess)).
  rewrite (touch_docs _ _ _ _ _ d) by done. rewrite lookup_insert_eq.
  unfold written, touched; simpl. rewrite Hnone; simpl.
  assert (Js.member
            (VObj (<[ "cookie" := VUndef ]> (Js.own_props (session d))))
            "cookie" = Fulfilled VUndef) as Hm.
  { unfold Js.member; simpl. by rewrite lookup_insert_eq. }
  repeat split; try done.
  - rewrite Hm. by intros c _ Hc [= <-].
  - rewrite declared_maxAge_merged. reflexivity.
Qed.

Lemma touch_without_cookie_resets_witness :
  ∃ d',
    docs (world (run (FirestoreStore.touch (steady (writeResult 2000)) quiet
                        "abc" bare_session) (holding fresh_doc 1500)).1)
      !! "abc" = Some d'
    ∧ session d'
      = VObj (<[ "cookie" := VUndef ]> (Js.own_props (user_session 1000)))
    ∧ Js.member (session d') "cookie" = Fulfilled VUndef
    ∧ (∀ c, Js.own_props (user_session 1000) !! "cookie" = Some c →
         c ≠ VUndef → Js.member (session d') "cookie" ≠ Fulfilled c)
    ∧ expires d' = 1500 + 0 + 21600000.
Proof.
  exact (touch_without_cookie_resets (steady (writeResult 2000)) quiet "abc"
           bare_session (holding fresh_doc 1500) fresh_doc
           eq_refl eq_refl eq_refl eq_refl eq_refl).
Defined.

(** C1: on a record with [expires < now], [get] deletes the record but
    does not report as it does for a missing record.  The missing record
    gets [fn()] and a valid one [fn(null, session)], error first; the
    expired path goes through [destroy], whose [.then(fn)] hands the
    callback the write result of the delete, a truthy value, in the
    position of the error. *)
Lemma get_expired_passes_write_result :
  docs (world (run (FirestoreStore.get (steady (writeResult 2000)) quiet "abc")
                 (holding stale_doc 2000)).1) = ∅
  ∧ calls (run (FirestoreStore.get (steady (writeResult 2000)) quiet "abc")
             (holding stale_doc 2000)).1
    = [[writeResult 2000]]
  ∧ Js.truthy (writeResult 2000) = true
  ∧ calls (run (FirestoreStore.get (steady (writeResult 2000)) quiet "abc")
             (empty_at 2000)).1
    = [[]]
  ∧ calls (run (FirestoreStore.get (steady (writeResult 2000)) quiet "abc")
             (holding fresh_doc 2000)).1
    = [[VNull; user_session 1000]]
  ∧ [[writeResult 2000]] ≠ [[] : list JsVal].
Proof. repeat split; [vm_compute; reflexivity.. | discriminate]. Qed.

(** What [get] does with an expired record in general: when the record
    under [cleanRef sid] has [expires < now] and the backend serves the
    read and the delete, [get] removes that record and invokes the
    callback first with a single argument, the value the delete was
    fulfilled with; for a missing record the first invocation has no
    arguments; on either path a callback that returns normally is
    invoked just that once. *)
Theorem get_expired_deletes_record backend fn sid w d ack :
  docs w !! cleanRef sid = Some d → expires d < clock w →
  succeeds backend (served w) = true →
  outcome (backend (S (served w))) = Fulfilled ack →
  docs (world (run (FirestoreStore.get backend fn sid) w).1)
  = delete (cleanRef sid) (docs w)
  ∧ calls (run (FirestoreStore.get backend fn sid) w).1 !! 0%nat = Some [ack]
  ∧ (returns fn →
     calls (run (FirestoreStore.get backend fn sid) w).1 = [[ack]])
  ∧ (∀ w0, docs w0 !! cleanRef sid = None →
       succeeds backend (served w0) = true →
       calls (run (FirestoreStore.get backend fn sid) w0).1 !! 0%nat
       = Some []
       ∧ (returns fn →
          calls (run (FirestoreStore.get backend fn sid) w0).1 = [[]])).
Proof.
  intros Hd Hlt Hok Hack.
  destruct (get_expired backend fn sid w d ack Hd Hlt Hok Hack) as [Hc Hdocs].
  repeat split; try done.
  - intros Hret. apply singleton_trace; [|done].
    by apply (exec_calls_once backend fn (OpGet sid) w).
  - by apply get_absent.
  - intros Hret. apply singleton_trace; [|by apply get_absent].
    by apply (exec_calls_once backend fn (OpGet sid) w0).
Qed.

Lemma get_expired_deletes_record_witness :
  docs (world (run (FirestoreStore.get (steady (writeResult 2000)) quiet "abc")
                 (holding stale_doc 2000)).1)
  = delete (cleanRef "abc") (docs (holding stale_doc 2000))
  ∧ calls (run (FirestoreStore.get (steady (writeResult 2000)) quiet "abc")
             (holding stale_doc 2000)).1
    = [[writeResult 2000]].
Proof.
  pose proof (get_expired_deletes_record (steady (writeResult 2000)) quiet
                "abc" (holding stale_doc 2000) stale_doc (writeResult 2000)
                eq_refl eq_refl eq_refl eq_refl) as (Hdocs & _ & Honce & _).
  split; [exact Hdocs|].
  apply Honce. intros n args. exists VUndef. reflexivity.
Defined.

(** C8: a readable payload without a numeric [cookie.maxAge] is stored
    by [set] with [expires = now + 21600000], and a [get] of the same
    session id issued no later than that instant hands the callback
    [null] and that very payload. *)
Theorem set_then_get_returns_payload backend fn fn' sid payload w (wait : N) :
  readable payload = true → declared_maxAge payload = None →
  succeeds backend (served w) = true →
  succeeds backend (S (served w)) = true →
  let w1 := world (run (FirestoreStore.set backend fn sid payload) w).1 in
  clock (later wait w1) ≤ clock w + 21600000 →
  (expires <$> docs w1 !! cleanRef sid) = Some (clock w + 21600000)
  ∧ calls (run (FirestoreStore.get backend fn' sid) (later wait w1)).1 !! 0%nat
    = Some [VNull; payload].
Proof.
  intros Hr Hnone Hok Hok' w1 Hsoon.
  assert (docs w1 = <[ cleanRef sid := written (clock w) payload ]> (docs w))
    as Hdocs by (by apply set_docs).
  assert (served w1 = S (served w)) as Hserved.
  { unfold w1. unfold_store. rewrite session_expires_spec by done.
    split_calls backend fn; done. }
  assert (expires (written (clock w) payload) = clock w + 21600000) as Hexp.
  { unfold written; simpl. by rewrite Hnone. }
  split.
  - rewrite Hdocs, lookup_insert_eq. simpl. by rewrite Hnone.
  - apply (get_valid backend fn' sid (later wait w1) (written (clock w) payload)).
    + simpl. by rewrite Hdocs, lookup_insert_eq.
    + by rewrite Hexp.
    + simpl. by rewrite Hserved.
Qed.

Lemma set_then_get_returns_payload_witness :
  (expires <$>
     docs (world (run (FirestoreStore.set (steady (writeResult 1000)) quiet
                         "abc" bare_session) (empty_at 1000)).1)
       !! cleanRef "abc") = Some (1000 + 21600000)
  ∧ calls (run (FirestoreStore.get (steady (writeResult 1000)) quiet "abc")
             (later 1000
                (world (run (FirestoreStore.set (steady (writeResult 1000))
                               quiet "abc" bare_session) (empty_at 1000)).1))).1
      !! 0%nat
    = Some [VNull; bare_session].
Proof.
  apply (set_then_get_returns_payload (steady (writeResult 1000)) quiet quiet
           "abc" bare_session (empty_at 1000) 1000 eq_refl eq_refl eq_refl
           eq_refl).
  vm_compute. discriminate.
Defined.

Lemma exec_keyed_congr backend fn k sid1 sid2 w :
  cleanRef sid1 = cleanRef sid2 →
  run (exec backend fn (keyed k sid1)) w
  = run (exec backend fn (keyed k sid2)) w.
Proof.
  intros Heq. destruct k; unfold_store; by rewrite Heq.
Qed.

(** C9: [get], [set], [destroy] and [touch] see their session id through
    [cleanRef] only: two ids with the same normal form give the same run
    (same final collection, same callback invocations, same result), an
    id behaves as its normal form does, and a record written under one
    id is the record found under the other. *)
Theorem keyed_ops_depend_on_cleanRef backend fn k sid1 sid2 payload w :
  cleanRef sid1 = cleanRef sid2 →
  run (exec backend fn (keyed k sid1)) w
  = run (exec backend fn (keyed k sid2)) w
  ∧ run (exec backend fn (keyed k sid1)) w
    = run (exec backend fn (keyed k (cleanRef sid1))) w
  ∧ (readable payload = true → succeeds backend (served w) = true →
     session <$>
       docs (world (run (FirestoreStore.set backend fn sid1 payload) w).1)
         !! cleanRef sid2
     = Some payload).
Proof.
  intros Heq. repeat split.
  - by apply exec_keyed_congr.
  - apply exec_keyed_congr. by rewrite cleanRef_idem.
  - intros Hr Hok. rewrite set_docs by done.
    by rewrite <- Heq, lookup_insert_eq.
Qed.

Lemma keyed_ops_depend_on_cleanRef_witness :
  "a.b" ≠ "a_b"
  ∧ run (exec (steady (writeResult 1500)) quiet (keyed KGet "a.b")) aliased
    = run (exec (steady (writeResult 1500)) quiet (keyed KGet "a_b")) aliased
  ∧ calls (run (exec (steady (writeResult 1500)) quiet (keyed KGet "a.b"))
             aliased).1
    = [[VNull; user_session 1000]]
  ∧ session <$>
      docs (world (run (FirestoreStore.set (steady (writeResult 1500)) quiet
                          "a.b" bare_session) aliased).1) !! cleanRef "a_b"
    = Some bare_session
  ∧ calls (run (FirestoreStore.get (steady (writeResult 1500)) quiet "a_b")
             (world (run (FirestoreStore.set (steady (writeResult 1500)) quiet
                            "a.b" bare_session) aliased).1)).1
    = [[VNull; bare_session]].
Proof.
  pose proof (keyed_ops_depend_on_cleanRef (steady (writeResult 1500)) quiet
                KGet "a.b" "a_b" bare_session aliased eq_refl)
    as (Hsame & _ & Hstored).
  split; [discriminate|]. split; [exact Hsame|].
  split; [vm_compute; reflexivity|].
  split; [exact (Hstored eq_refl eq_refl)|].
  vm_compute. reflexivity.
Defined.

(** C4: [reap] leaves every record whose [expires] is not below the
    clock read at the start of the pass exactly as it was, adds no
    record, and, when the backend serves every request, removes every
    record whose [expires] is below that clock. *)
Theorem reap_sweeps_expired_only backend fn w key :
  (∀ d, docs w !! key = Some d → clock w ≤ expires d →
     docs (world (run (FirestoreStore.reap backend fn) w).1) !! key = Some d)
  ∧ (docs w !! key = None →
     docs (world (run (FirestoreStore.reap backend fn) w).1) !! key = None)
  ∧ ((∀ n, succeeds backend n = true) →
     ∀ d, docs w !! key = Some d → expires d < clock w →
       docs (world (run (FirestoreStore.reap backend fn) w).1) !! key = None).
Proof.
  rewrite reap_docs.
  destruct (succeeds backend (served w)) eqn:Hok.
  - match goal with
    | |- context [FirestoreStore.forEach_delete ?b ?l ?s] =>
        pose proof (forEach_delete_frame b l s key) as [Hout Hin];
        pose proof (forEach_delete_complete b l s key) as Hall
    end.
    simpl in Hout, Hin, Hall. repeat split.
    + intros d Hd Hle. rewrite Hout; [done|].
      rewrite elem_of_expired_keys. intros (d' & Hd' & Hlt).
      rewrite Hd in Hd'. injection Hd' as <-. lia.
    + intros Hnone. destruct Hin as [Hin|Hin]; [done | by rewrite Hin].
    + intros Hgood d Hd Hlt. apply Hall; [done|].
      apply elem_of_expired_keys. by exists d.
  - repeat split; try done.
    intros Hgood. by rewrite Hgood in Hok.
Qed.

Lemma reap_sweeps_expired_only_witness :
  docs (world (run (FirestoreStore.reap (steady (writeResult 2000)) quiet)
                 two_docs).1) !! "A" = None
  ∧ docs (world (run (FirestoreStore.reap (steady (writeResult 2000)) quiet)
                   two_docs).1) !! "B" = Some fresh_doc.
Proof.
  split.
  - apply (proj2 (proj2 (reap_sweeps_expired_only
                           (steady (writeResult 2000)) quiet two_docs "A"))
             (λ _, eq_refl) stale_doc eq_refl).
    simpl. lia.
  - apply (proj1 (reap_sweeps_expired_only
                    (steady (writeResult 2000)) quiet two_docs "B")
             fresh_doc eq_refl).
    simpl. lia.
Defined.

(** C5, as stated, fails: a callback that throws when [set] reports its
    success is invoked a second time, with the error it threw. *)
Lemma set_invokes_throwing_callback_twice :
  calls (run (exec (steady (writeResult 1000)) (throwing (VErr "Error"))
                (OpSet "abc" bare_session)) (empty_at 1000)).1
  = [[writeResult 1000]; [VErr "Error"]].
Proof. vm_compute. reflexivity. Qed.

(** C5, amended: for every operation of the facade whose payload can be
    read and every way the backend settles its requests, a callback that
    returns normally is invoked exactly once; it is invoked again only
    when the invocation before threw, and then with what that invocation
    threw as its only argument; in every case the number of invocations
    is at least one and at most three. *)
Theorem callback_invoked_once_if_it_returns backend fn op w :
  well_formed op = true →
  (returns fn → length (calls (run (exec backend fn op) w).1) = 1%nat)
  ∧ (∀ n args,
       calls (run (exec backend fn op) w).1 !! S n = Some args →
       ∃ prev e,
         calls (run (exec backend fn op) w).1 !! n = Some prev
         ∧ fn n prev = Rejected e
         ∧ args = [e])
  ∧ (1 ≤ length (calls (run (exec backend fn op) w).1) ≤ 3)%nat.
Proof.
  intros Hwf. split; [|split].
  - intros Hret. by apply exec_calls_once.
  - intros n args. by apply exec_calls_rethrown.
  - by apply exec_calls_bounds.
Qed.

Lemma callback_invoked_once_if_it_returns_witness :
  length (calls (run (exec (steady (writeResult 2000)) quiet OpClear)
                   two_docs).1) = 1%nat
  ∧ ∃ prev e,
      calls (run (exec (steady (writeResult 1000)) (throwing (VErr "Error"))
                    (OpSet "abc" bare_session)) (empty_at 1000)).1 !! 0%nat
      = Some prev
      ∧ throwing (VErr "Error") 0%nat prev = Rejected e
      ∧ [VErr "Error"] = [e].
Proof.
  split.
  - apply (proj1 (callback_invoked_once_if_it_returns
                    (steady (writeResult 2000)) quiet OpClear two_docs eq_refl)).
    intros n args. exists VUndef. reflexivity.
  - apply (proj1 (proj2 (callback_invoked_once_if_it_returns
                           (steady (writeResult 1000)) (throwing (VErr "Error"))
                           (OpSet "abc" bare_session) (empty_at 1000) eq_refl))
             0%nat [VErr "Error"]).
    vm_compute. reflexivity.
Defined.

(** * Further properties of the store *)

(** ** The world after a served operation *)

Lemma set_world backend fn sid payload w :
  readable payload = true → succeeds backend (served w) = true →
  world (run (FirestoreStore.set backend fn sid payload) w).1
  = {| docs := <[ cleanRef sid := written (clock w) payload ]> (docs w);
       clock := clock w + Z.of_N (elapsed (backend (served w)));
       served := S (served w) |}.
Proof.
  intros Hr [ack Hack]%succeeds_outcome.
  unfold_store. rewrite session_expires_spec by done.
  unfold_store. rewrite Hack; simpl. by destruct (fn _ _).
Qed.

Lemma destroy_world backend fn sid w :
  succeeds backend (served w) = true →
  world (run (FirestoreStore.destroy backend fn sid) w).1
  = {| docs := delete (cleanRef sid) (docs w);
       clock := clock w + Z.of_N (elapsed (backend (served w)));
       served := S (served w) |}.
Proof.
  intros [ack Hack]%succeeds_outcome.
  unfold_store. rewrite Hack; simpl. by destruct (fn _ _).
Qed.

Lemma destroy_first_call backend fn sid w :
  calls (run (FirestoreStore.destroy backend fn sid) w).1 !! 0%nat
  = Some [match outcome (backend (served w)) with
          | Fulfilled ack => ack
          | Rejected e => e
          end].
Proof.
  unfold_store. destruct (outcome (backend (served w))); simpl; [|done].
  by destruct (fn _ _).
Qed.

Lemma touch_world backend fn sid sess w d :
  docs w !! cleanRef sid = Some d → readable sess = true →
  succeeds backend (served w) = true →
  succeeds backend (S (served w)) = true →
  world (run (FirestoreStore.touch backend fn sid sess) w).1
  = {| docs := <[ cleanRef sid :=
                    written (clock (after_read backend w))
                      (touched (session d) sess) ]> (docs w);
       clock := clock (after_read backend w)
                + Z.of_N (elapsed (backend (S (served w))));
       served := S (S (served w)) |}.
Proof.
  intros Hd Hr H0 H1. rewrite (touch_found _ _ _ _ _ d) by done.
  pose proof (set_world backend fn sid (touched (session d) sess)
                (after_read backend w) eq_refl H1) as Hset.
  unfold run in Hset. unfold catch_.
  destruct (FirestoreStore.set _ _ _ _ _) as [s [v|e]]; simpl in *; [done|].
  by unfold FirestoreStore.call.
Qed.

Lemma unreadable_cases v : readable v = false → v = VUndef ∨ v = VNull.
Proof. destruct v; simpl; auto; discriminate. Qed.

(** ** Deleting one record *)

(** X1: once the backend has served the delete, [destroy] has removed
    the record under the normalised key and nothing else, and hands the
    callback the acknowledgement; with no record under that key the
    collection is left as it was and the callback is invoked in the
    same way, so destroying twice is no error. *)
Theorem destroy_removes_its_key backend fn sid w ack :
  outcome (backend (served w)) = Fulfilled ack →
  docs (world (run (FirestoreStore.destroy backend fn sid) w).1)
  = delete (cleanRef sid) (docs w)
  ∧ calls (run (FirestoreStore.destroy backend fn sid) w).1 !! 0%nat
    = Some [ack]
  ∧ (docs w !! cleanRef sid = None →
     docs (world (run (FirestoreStore.destroy backend fn sid) w).1) = docs w).
Proof.
  intros Hack.
  assert (succeeds backend (served w) = true) as Hok
    by (unfold succeeds; by rewrite Hack).
  rewrite destroy_world by done. rewrite destroy_first_call, Hack. simpl.
  repeat split. intros Hnone. by apply delete_id.
Qed.

Lemma destroy_removes_its_key_witness :
  docs (world (run (FirestoreStore.destroy (steady (writeResult 2000)) quiet
                      "B") two_docs).1)
  = delete (cleanRef "B") (docs two_docs)
  ∧ calls (run (FirestoreStore.destroy (steady (writeResult 2000)) quiet "B")
             two_docs).1 !! 0%nat
    = Some [writeResult 2000].
Proof.
  pose proof (destroy_removes_its_key (steady (writeResult 2000)) quiet "B"
                two_docs (writeResult 2000) eq_refl) as (Hdocs & Hcall & _).
  exact (conj Hdocs Hcall).
Defined.

(** ** Failures of the backend *)

(** X2: when the backend rejects the first request of an operation (the
    read of [get] and [touch], the write of [set], the delete of
    [destroy], the query of [clear] and [reap]), the callback is invoked
    with the rejection itself as its only argument, no document is
    changed, and a callback that returns normally is not invoked again. *)
Theorem first_rejection_is_reported backend fn op w e :
  well_formed op = true → outcome (backend (served w)) = Rejected e →
  calls (run (exec backend fn op) w).1 !! 0%nat = Some [e]
  ∧ docs (world (run (exec backend fn op) w).1) = docs w
  ∧ (returns fn → calls (run (exec backend fn op) w).1 = [[e]]).
Proof.
  intros Hwf He.
  assert (calls (run (exec backend fn op) w).1 !! 0%nat = Some [e]
          ∧ docs (world (run (exec backend fn op) w).1) = docs w)
    as [Hcall Hdocs].
  { destruct op as [sid|sid payload|sid|sid sess| |]; simpl in Hwf;
      unfold_store; rewrite ?session_expires_spec by done;
      unfold_store; rewrite He; simpl; by repeat destruct (fn _ _). }
  repeat split; try done.
  intros Hret. apply singleton_trace; [|done]. by apply exec_calls_once.
Qed.

Lemma first_rejection_is_reported_witness :
  calls (run (exec (failing_at 0 (VErr "unavailable") (writeResult 2000))
                quiet (OpGet "B")) two_docs).1 = [[VErr "unavailable"]].
Proof.
  pose proof (first_rejection_is_reported
                (failing_at 0 (VErr "unavailable") (writeResult 2000)) quiet
                (OpGet "B") two_docs (VErr "unavailable") eq_refl eq_refl)
    as (_ & _ & Honce).
  apply Honce. intros n args. exists VUndef. reflexivity.
Defined.

(** X3: when the read is served and the second request is rejected,
    the record stays as it was and the callback is invoked with the
    rejection: for [get] on an expired record (the delete fails) and for
    [touch] on an existing record (the write fails). *)
Theorem second_rejection_keeps_record backend fn sid sess w d e :
  docs w !! cleanRef sid = Some d →
  succeeds backend (served w) = true →
  outcome (backend (S (served w))) = Rejected e →
  (expires d < clock w →
   calls (run (FirestoreStore.get backend fn sid) w).1 !! 0%nat = Some [e]
   ∧ docs (world (run (FirestoreStore.get backend fn sid) w).1) = docs w)
  ∧ (readable sess = true →
     calls (run (FirestoreStore.touch backend fn sid sess) w).1 !! 0%nat
     = Some [e]
     ∧ docs (world (run (FirestoreStore.touch backend fn sid sess) w).1)
       = docs w).
Proof.
  intros Hd [snap Hsnap]%succeeds_outcome He. split.
  - intros Hlt. unfold_store. rewrite Hsnap; simpl. rewrite Hd; simpl.
    destruct (Z.ltb_spec (expires d) (clock w)) as [_|Hle]; [|lia]; simpl.
    rewrite He; simpl. by repeat destruct (fn _ _).
  - intros Hr. unfold_store. rewrite Hsnap; simpl. rewrite Hd; simpl.
    rewrite member_readable by done; simpl.
    rewrite session_expires_spec by done. simpl.
    rewrite He; simpl. by repeat destruct (fn _ _).
Qed.

Lemma second_rejection_keeps_record_witness :
  (calls (run (FirestoreStore.get
                 (failing_at 1 (VErr "unavailable") (writeResult 2000)) quiet
                 "abc") (holding stale_doc 2000)).1 !! 0%nat
   = Some [VErr "unavailable"]
   ∧ docs (world (run (FirestoreStore.get
                         (failing_at 1 (VErr "unavailable") (writeResult 2000))
                         quiet "abc") (holding stale_doc 2000)).1)
     = docs (holding stale_doc 2000))
  ∧ (calls (run (FirestoreStore.touch
                   (failing_at 1 (VErr "unavailable") (writeResult 2000)) quiet
                   "abc" bare_session) (holding stale_doc 2000)).1 !! 0%nat
     = Some [VErr "unavailable"]
     ∧ docs (world (run (FirestoreStore.touch
                           (failing_at 1 (VErr "unavailable")
                              (writeResult 2000))
                           quiet "abc" bare_session)
                      (holding stale_doc 2000)).1)
       = docs (holding stale_doc 2000)).
Proof.
  pose proof (second_rejection_keeps_record
                (failing_at 1 (VErr "unavailable") (writeResult 2000)) quiet
                "abc" bare_session (holding stale_doc 2000) stale_doc
                (VErr "unavailable") eq_refl eq_refl eq_refl) as [Hget Htouch].
  exact (conj (Hget eq_refl) (Htouch eq_refl)).
Defined.

(** ** Payloads that cannot be read *)

(** X4: with a payload that is [null] or [undefined], [set] throws a
    [TypeError] before it reaches the backend: no request is issued, no
    document changes and the callback is never invoked; [touch] on an
    existing record catches the same error and hands it to the
    callback, after the read and without writing. *)
Theorem unreadable_payload_is_rejected backend fn sid payload w :
  readable payload = false →
  run (FirestoreStore.set backend fn sid payload) w
  = ({| world := w; calls := [] |}, Rejected (VErr "TypeError"))
  ∧ (∀ d, docs w !! cleanRef sid = Some d →
       succeeds backend (served w) = true →
       calls (run (FirestoreStore.touch backend fn sid payload) w).1 !! 0%nat
       = Some [VErr "TypeError"]
       ∧ world (run (FirestoreStore.touch backend fn sid payload) w).1
         = after_read backend w).
Proof.
  intros Hbad. apply unreadable_cases in Hbad. split.
  - unfold run, FirestoreStore.set, then_ at 1 2, Date_now.
    rewrite session_expires_unreadable by done. by destruct w.
  - intros d Hd [snap Hsnap]%succeeds_outcome.
    unfold_store. rewrite Hsnap; simpl. rewrite Hd; simpl.
    by destruct Hbad as [-> | ->]; unfold Js.member; simpl.
Qed.

Lemma unreadable_payload_is_rejected_witness :
  run (FirestoreStore.set (steady (writeResult 2000)) quiet "abc" VNull)
    (holding fresh_doc 1500)
  = ({| world := holding fresh_doc 1500; calls := [] |},
     Rejected (VErr "TypeError"))
  ∧ calls (run (FirestoreStore.touch (steady (writeResult 2000)) quiet "abc"
                  VNull) (holding fresh_doc 1500)).1 !! 0%nat
    = Some [VErr "TypeError"].
Proof.
  pose proof (unreadable_payload_is_rejected (steady (writeResult 2000)) quiet
                "abc" VNull (holding fresh_doc 1500) eq_refl) as [Hset Htouch].
  exact (conj Hset (proj1 (Htouch fresh_doc eq_refl eq_refl))).
Defined.

(** ** What an operation leaves alone *)

Ltac split_outcomes backend fn :=
  repeat (simpl;
    match goal with
    | |- context [outcome (backend ?n)] =>
        destruct (outcome (backend n)) eqn:?
    | |- context [fn ?n ?a] => destruct (fn n a) eqn:?
    | |- context [Z.ltb ?a ?b] => destruct (Z.ltb a b) eqn:?
    | |- context [Js.member ?v ?k] => destruct (Js.member v k) eqn:?
    | |- context [Js.Promise_all ?ps] => destruct (Js.Promise_all ps) eqn:?
    end).

(** X5: [get], [set], [destroy] and [touch] never change a document
    stored under a key other than the normalised session id, whatever
    the backend and the callback do. *)
Theorem keyed_op_leaves_other_keys backend fn k sid w key :
  key ≠ cleanRef sid →
  docs (world (run (exec backend fn (keyed k sid)) w).1) !! key
  = docs w !! key.
Proof.
  intros Hne.
  destruct k as [|payload| |sess]; simpl.
  - unfold_store. destruct (docs w !! cleanRef sid) as [d|];
      split_outcomes backend fn; simpl;
      rewrite ?lookup_delete_ne by done; done.
  - destruct (readable payload) eqn:Hr.
    + unfold_store. rewrite session_expires_spec by done.
      split_outcomes backend fn; simpl;
        rewrite ?lookup_insert_ne by done; done.
    + apply unreadable_cases in Hr.
      unfold run, FirestoreStore.set, then_ at 1 2, Date_now.
      by rewrite session_expires_unreadable.
  - unfold_store. split_outcomes backend fn; simpl;
      rewrite ?lookup_delete_ne by done; done.
  - unfold_store. destruct (docs w !! cleanRef sid) as [d|];
      split_outcomes backend fn; simpl; try done.
    all: rewrite session_expires_spec by done.
    all: split_outcomes backend fn; simpl;
      rewrite ?lookup_insert_ne by done; done.
Qed.

Lemma keyed_op_leaves_other_keys_witness :
  docs (world (run (exec (steady (writeResult 2000)) quiet
                      (keyed (KSet bare_session) "A")) two_docs).1) !! "B"
  = docs two_docs !! "B".
Proof.
  apply (keyed_op_leaves_other_keys (steady (writeResult 2000)) quiet
           (KSet bare_session) "A" two_docs "B").
  discriminate.
Defined.

Lemma forEach_delete_subseteq backend snapshots s :
  docs (world (FirestoreStore.forEach_delete backend snapshots s).1)
  ⊆ docs (world s).
Proof.
  apply map_subseteq_spec. intros k d Hk.
  destruct (forEach_delete_frame backend snapshots s k) as [_ [Hn|He]];
    congruence.
Qed.

(** X6: [get], [destroy], [clear] and [reap] never add a document and
    never alter one: every document of the collection afterwards was
    there before, unchanged. *)
Theorem reading_and_deleting_never_write backend fn op w :
  removes_only op = true →
  docs (world (run (exec backend fn op) w).1) ⊆ docs w.
Proof.
  intros Hop.
  destruct op as [sid|sid payload|sid|sid sess| |]; try discriminate; simpl.
  - unfold_store. split_calls backend fn; simpl;
      done || apply delete_subseteq.
  - unfold_store. split_calls backend fn; simpl;
      done || apply delete_subseteq.
  - unfold_store. destruct (outcome (backend (served w))); simpl; [|done].
    match goal with
    | |- context [FirestoreStore.forEach_delete ?b ?l ?s] =>
        pose proof (forEach_delete_subseteq b l s) as Hsub;
        destruct (FirestoreStore.forEach_delete b l s) as [[w1 c1] remove]
    end.
    simpl in *. by split_calls backend fn.
  - unfold_store. destruct (outcome (backend (served w))); simpl; [|done].
    match goal with
    | |- context [FirestoreStore.forEach_delete ?b ?l ?s] =>
        pose proof (forEach_delete_subseteq b l s) as Hsub;
        destruct (FirestoreStore.forEach_delete b l s) as [[w1 c1] remove]
    end.
    simpl in *. by split_calls backend fn.
Qed.

Lemma reading_and_deleting_never_write_witness :
  docs (world (run (exec (steady (writeResult 2000)) quiet OpReap)
                 two_docs).1) ⊆ docs two_docs.
Proof.
  exact (reading_and_deleting_never_write (steady (writeResult 2000)) quiet
           OpReap two_docs eq_refl).
Defined.

(** ** Operations in sequence *)

(** X7: a second [set] under a session id with the same normal form
    replaces the record of the first: the collection ends as if only the
    second had happened, with one record under the key, holding the
    second payload and an [expires] counted from the second write. *)
Theorem set_overwrites_previous_record
    backend fn fn' sid1 sid2 p1 p2 w (wait : N) :
  cleanRef sid1 = cleanRef sid2 →
  readable p1 = true → readable p2 = true →
  succeeds backend (served w) = true →
  succeeds backend (S (served w)) = true →
  docs (world (run (FirestoreStore.set backend fn' sid2 p2)
                 (later wait
                    (world (run (FirestoreStore.set backend fn sid1 p1) w).1))).1)
  = <[ cleanRef sid2 :=
         {| expires := clock w + Z.of_N (elapsed (backend (served w)))
                       + Z.of_N wait
                       + default 21600000 (declared_maxAge p2);
            session := p2;
            type := "connect-session" |} ]> (docs w).
Proof.
  intros Heq Hr1 Hr2 H0 H1.
  rewrite (set_world backend fn sid1 p1 w) by done.
  rewrite set_docs by done. simpl.
  by rewrite Heq, insert_insert_eq.
Qed.

Lemma set_overwrites_previous_record_witness :
  docs (world (run (FirestoreStore.set (steady (writeResult 1000)) quiet "a_b"
                      bare_session)
                 (later 500
                    (world (run (FirestoreStore.set (steady (writeResult 1000))
                                   quiet "a.b" (user_session 60000))
                              (empty_at 1000)).1))).1)
  = {[ "a_b" := {| expires := 21601500; session := bare_session;
                   type := "connect-session" |} ]}.
Proof.
  exact (set_overwrites_previous_record (steady (writeResult 1000)) quiet quiet
           "a.b" "a_b" (user_session 60000) bare_session (empty_at 1000) 500
           eq_refl eq_refl eq_refl eq_refl eq_refl).
Defined.

(** X8: after [set] and then [destroy] of the same session id, a [get]
    finds nothing: it invokes the callback without arguments and the
    key holds no record, however much time passed in between. *)
Theorem set_destroy_get_finds_nothing
    backend fn1 fn2 fn3 sid payload w (wait1 wait2 : N) :
  readable payload = true →
  succeeds backend (served w) = true →
  succeeds backend (S (served w)) = true →
  succeeds backend (S (S (served w))) = true →
  let w1 := world (run (FirestoreStore.set backend fn1 sid payload) w).1 in
  let w2 :=
    world (run (FirestoreStore.destroy backend fn2 sid) (later wait1 w1)).1 in
  calls (run (FirestoreStore.get backend fn3 sid) (later wait2 w2)).1 !! 0%nat
  = Some []
  ∧ docs (world (run (FirestoreStore.get backend fn3 sid) (later wait2 w2)).1)
      !! cleanRef sid = None.
Proof.
  intros Hr H0 H1 H2 w1 w2.
  assert (docs (later wait2 w2) !! cleanRef sid = None
          ∧ served (later wait2 w2) = S (S (served w))) as [Hnone Hserved].
  { unfold w2, w1. rewrite (set_world backend fn1 sid payload w) by done.
    rewrite destroy_world by done. simpl. by rewrite lookup_delete_eq. }
  destruct (get_absent backend fn3 sid (later wait2 w2)) as [Hcall Hdocs];
    [done | by rewrite Hserved |].
  by rewrite Hcall, Hdocs.
Qed.

Lemma set_destroy_get_finds_nothing_witness :
  calls (run (FirestoreStore.get (steady (writeResult 1000)) quiet "abc")
           (later 10
              (world (run (FirestoreStore.destroy (steady (writeResult 1000))
                             quiet "abc")
                        (later 10
                           (world (run (FirestoreStore.set
                                          (steady (writeResult 1000)) quiet
                                          "abc" bare_session)
                                     (empty_at 1000)).1))).1))).1 !! 0%nat
  = Some [].
Proof.
  exact (proj1 (set_destroy_get_finds_nothing (steady (writeResult 1000))
                  quiet quiet quiet "abc" bare_session (empty_at 1000) 10 10
                  eq_refl eq_refl eq_refl eq_refl)).
Defined.

(** X9: a record written by [set] with lifetime [L] (the numeric
    [cookie.maxAge], zero and negative values included, or 21600000) is
    handed back by a [get] whose clock is at most [now + L] and is
    deleted by a [get] whose clock is beyond [now + L], which then
    invokes the callback with the acknowledgement of the delete. *)
Theorem set_then_get_respects_lifetime
    backend fn fn' sid payload w (wait : N) :
  readable payload = true →
  succeeds backend (served w) = true →
  succeeds backend (S (served w)) = true →
  let lifetime := default 21600000 (declared_maxAge payload) in
  let w1 := world (run (FirestoreStore.set backend fn sid payload) w).1 in
  (clock (later wait w1) ≤ clock w + lifetime →
   calls (run (FirestoreStore.get backend fn' sid) (later wait w1)).1 !! 0%nat
   = Some [VNull; payload]
   ∧ docs (world (run (FirestoreStore.get backend fn' sid) (later wait w1)).1)
     = docs w1)
  ∧ (clock w + lifetime < clock (later wait w1) →
     ∀ ack, outcome (backend (S (S (served w)))) = Fulfilled ack →
       calls (run (FirestoreStore.get backend fn' sid) (later wait w1)).1
         !! 0%nat = Some [ack]
       ∧ docs (world (run (FirestoreStore.get backend fn' sid)
                        (later wait w1)).1) !! cleanRef sid = None).
Proof.
  intros Hr H0 H1 lifetime w1.
  assert (w1 = {| docs := <[ cleanRef sid := written (clock w) payload ]> (docs w);
                  clock := clock w + Z.of_N (elapsed (backend (served w)));
                  served := S (served w) |}) as Hw1
    by (by apply set_world).
  assert (docs (later wait w1) !! cleanRef sid = Some (written (clock w) payload))
    as Hd by (rewrite Hw1; simpl; apply lookup_insert_eq).
  assert (served (later wait w1) = S (served w)) as Hs by (by rewrite Hw1).
  split.
  - intros Hle.
    apply (get_valid backend fn' sid (later wait w1) (written (clock w) payload));
      [done | exact Hle | by rewrite Hs].
  - intros Hlt ack Hack.
    destruct (get_expired backend fn' sid (later wait w1)
                (written (clock w) payload) ack) as [Hcall Hdocs];
      [done | exact Hlt | by rewrite Hs | by rewrite Hs |].
    rewrite Hcall, Hdocs. by rewrite lookup_delete_eq.
Qed.

Lemma set_then_get_respects_lifetime_witness :
  (calls (run (FirestoreStore.get (steady (writeResult 1000)) quiet "abc")
            (later 1000 after_set)).1 !! 0%nat
   = Some [VNull; user_session 60000])
  ∧ (calls (run (FirestoreStore.get (steady (writeResult 1000)) quiet "abc")
              (later 61000 after_set)).1 !! 0%nat
     = Some [writeResult 1000]
     ∧ docs (world (run (FirestoreStore.get (steady (writeResult 1000)) quiet
                           "abc") (later 61000 after_set)).1) !! cleanRef "abc"
       = None).
Proof.
  split.
  - apply (proj1 (set_then_get_respects_lifetime (steady (writeResult 1000))
                    quiet quiet "abc" (user_session 60000) (empty_at 1000) 1000
                    eq_refl eq_refl eq_refl)).
    vm_compute. discriminate.
  - apply (proj2 (set_then_get_respects_lifetime (steady (writeResult 1000))
                    quiet quiet "abc" (user_session 60000) (empty_at 1000) 61000
                    eq_refl eq_refl eq_refl)).
    + vm_compute. reflexivity.
    + reflexivity.
Defined.

(** X10: [touch] does not look at [expires]: a stored record, expired or
    not, is rewritten with a lifetime taken from the incoming payload
    alone, so a [get] within that lifetime hands back the stored payload
    with the incoming [cookie] instead of deleting the record. *)
Theorem touch_then_get_returns_merged
    backend fn fn' sid sess w d (wait : N) :
  docs w !! cleanRef sid = Some d →
  readable sess = true →
  succeeds backend (served w) = true →
  succeeds backend (S (served w)) = true →
  succeeds backend (S (S (served w))) = true →
  let w1 := world (run (FirestoreStore.touch backend fn sid sess) w).1 in
  clock (later wait w1)
  ≤ clock w + Z.of_N (elapsed (backend (served w)))
    + default 21600000 (declared_maxAge sess) →
  calls (run (FirestoreStore.get backend fn' sid) (later wait w1)).1 !! 0%nat
  = Some [VNull;
          VObj (<[ "cookie" := default VUndef (Js.own_props sess !! "cookie") ]>
                  (Js.own_props (session d)))].
Proof.
  intros Hd Hr H0 H1 H2 w1 Hle.
  assert (w1 = {| docs := <[ cleanRef sid :=
                               written (clock (after_read backend w))
                                 (touched (session d) sess) ]> (docs w);
                  clock := clock (after_read backend w)
                           + Z.of_N (elapsed (backend (S (served w))));
                  served := S (S (served w)) |}) as Hw1
    by (by apply touch_world).
  apply (get_valid backend fn' sid (later wait w1)
           (written (clock (after_read backend w)) (touched (session d) sess))).
  - rewrite Hw1; simpl. apply lookup_insert_eq.
  - unfold written; simpl. by rewrite declared_maxAge_touched.
  - by rewrite Hw1.
Qed.

Lemma touch_then_get_returns_merged_witness :
  calls (run (FirestoreStore.get (steady (writeResult 2000)) quiet "abc")
           (later 1000
              (world (run (FirestoreStore.touch (steady (writeResult 2000))
                             quiet "abc" (user_session 5000))
                        (holding stale_doc 2000)).1))).1 !! 0%nat
  = Some [VNull;
          VObj (<[ "cookie" := VObj {[ "maxAge" := VNum 5000 ]} ]>
                  (Js.own_props bare_session))].
Proof.
  apply (touch_then_get_returns_merged (steady (writeResult 2000)) quiet quiet
           "abc" (user_session 5000) (holding stale_doc 2000) stale_doc 1000
           eq_refl eq_refl eq_refl eq_refl eq_refl).
  vm_compute. discriminate.
Defined.

(** ** The reaper and the lazy expiry of [get] *)

Lemma reap_lookup backend fn w key :
  (∀ n, succeeds backend n = true) →
  docs (world (run (FirestoreStore.reap backend fn) w).1) !! key
  = match docs w !! key with
    | Some d => if expires d <? clock w then None else Some d
    | None => None
    end.
Proof.
  intros Hok. rewrite reap_docs, Hok.
  match goal with
  | |- context [FirestoreStore.forEach_delete ?b ?l ?s] =>
      pose proof (forEach_delete_frame b l s key) as [Hout Hin];
      pose proof (forEach_delete_complete b l s key Hok) as Hall
  end.
  simpl in Hout, Hin, Hall.
  destruct (docs w !! key) as [d|] eqn:Hd.
  - destruct (Z.ltb_spec (expires d) (clock w)) as [Hlt|Hle].
    + apply Hall. apply elem_of_expired_keys. by exists d.
    + rewrite Hout; [done|].
      rewrite elem_of_expired_keys. intros (d' & Hd' & Hlt).
      rewrite Hd in Hd'. injection Hd' as <-. lia.
  - destruct Hin as [Hin|Hin]; [done | by rewrite Hin].
Qed.

(** X11: the reaper and [get] agree on every key: when the backend
    serves its requests, the record under the normalised session id is
    the same after a pass of [reap] as after a [get] of that id at the
    same clock: kept if [expires] is not below the clock, gone
    otherwise. *)
Theorem reap_agrees_with_get backend fn fn' sid w :
  (∀ n, succeeds backend n = true) →
  docs (world (run (FirestoreStore.reap backend fn) w).1) !! cleanRef sid
  = docs (world (run (FirestoreStore.get backend fn' sid) w).1) !! cleanRef sid.
Proof.
  intros Hok. rewrite reap_lookup by done.
  destruct (docs w !! cleanRef sid) as [d|] eqn:Hd.
  - destruct (Z.ltb_spec (expires d) (clock w)) as [Hlt|Hle].
    + destruct (succeeds_outcome backend (S (served w)) (Hok _)) as [ack Hack].
      destruct (get_expired backend fn' sid w d ack) as [_ ->]; try done.
      by rewrite lookup_delete_eq.
    + destruct (get_valid backend fn' sid w d) as [_ ->]; done.
  - destruct (get_absent backend fn' sid w) as [_ ->]; done.
Qed.

Lemma reap_agrees_with_get_witness :
  docs (world (run (FirestoreStore.reap (steady (writeResult 2000)) quiet)
                 (holding stale_doc 2000)).1) !! cleanRef "abc"
  = docs (world (run (FirestoreStore.get (steady (writeResult 2000)) quiet
                        "abc") (holding stale_doc 2000)).1) !! cleanRef "abc".
Proof.
  exact (reap_agrees_with_get (steady (writeResult 2000)) quiet quiet "abc"
           (holding stale_doc 2000) (λ _, eq_refl)).
Defined.

(** ** Bulk deletion: what the callback is told *)

(** The promises collected by [forEach] are the outcomes of the
    requests issued one after the other. *)
Lemma forEach_delete_results backend snapshots s :
  (FirestoreStore.forEach_delete backend snapshots s).2
  = (λ n, outcome (backend n))
      <$> seq (served (world s)) (length snapshots).
Proof.
  revert s. induction snapshots as [|snapshot rest IH]; intros s; simpl; [done|].
  pose proof (doc_delete_served backend snapshot.1 s) as Hs.
  assert ((FirestoreStore.doc_delete backend snapshot.1 s).2
          = outcome (backend (served (world s)))) as Hp.
  { unfold_store. by destruct (outcome _). }
  destruct (FirestoreStore.doc_delete backend snapshot.1 s) as [s1 p].
  specialize (IH s1).
  destruct (FirestoreStore.forEach_delete backend rest s1) as [s2 remove].
  simpl in *. by rewrite Hp, IH, Hs.
Qed.

Lemma Promise_all_fulfilled backend start len :
  (∀ n, succeeds backend n = true) →
  ∃ acks,
    Js.Promise_all ((λ n, outcome (backend n)) <$> seq start len)
    = Fulfilled acks
    ∧ length acks = len.
Proof.
  intros Hok. revert start. induction len as [|len IH]; intros start.
  - by exists [].
  - destruct (succeeds_outcome backend start (Hok _)) as [ack Hack].
    destruct (IH (S start)) as (acks & Hacks & Hlen).
    exists (ack :: acks). cbn [seq]. rewrite fmap_cons.
    cbn [Js.Promise_all]. rewrite Hack, Hacks. simpl. by rewrite Hlen.
Qed.

Lemma Promise_all_first_rejection backend start len i e :
  (i < len)%nat →
  outcome (backend (start + i)%nat) = Rejected e →
  (∀ j, (j < i)%nat → succeeds backend (start + j)%nat = true) →
  Js.Promise_all ((λ n, outcome (backend n)) <$> seq start len) = Rejected e.
Proof.
  revert start i. induction len as [|len IH]; intros start i Hi He Hbefore;
    [lia|]. cbn [seq]. rewrite fmap_cons. cbn [Js.Promise_all].
  destruct i as [|i].
  - rewrite Nat.add_0_r in He. by rewrite He.
  - destruct (succeeds_outcome backend start) as [ack Hack].
    { specialize (Hbefore 0%nat). rewrite Nat.add_0_r in Hbefore.
      apply Hbefore. lia. }
    rewrite Hack.
    rewrite (IH (S start) i); [done | lia | |].
    + by replace (S start + i)%nat with (start + S i)%nat by lia.
    + intros j Hj. replace (S start + j)%nat with (start + S j)%nat by lia.
      apply Hbefore. lia.
Qed.

(** The first invocation of the callback after the listing has been
    served, for [clear] and for [reap]. *)
Lemma bulk_first_call backend fn snapshots w0 :
  calls
    (let (s1, remove) :=
       FirestoreStore.forEach_delete backend snapshots
         {| world := w0; calls := [] |} in
     FirestoreStore.settle_all fn remove s1).1 !! 0%nat
  = Some [match Js.Promise_all
                  ((λ n, outcome (backend n))
                     <$> seq (served w0) (length snapshots)) with
          | Fulfilled acks => VArr acks
          | Rejected e => e
          end].
Proof.
  pose proof (forEach_delete_results backend snapshots
                {| world := w0; calls := [] |}) as Hres.
  pose proof (forEach_delete_calls backend snapshots
                {| world := w0; calls := [] |}) as Hcalls.
  destruct (FirestoreStore.forEach_delete _ _ _) as [[w1 c1] remove].
  simpl in *. subst c1 remove.
  unfold_store. destruct (Js.Promise_all _); simpl; by repeat destruct (fn _ _).
Qed.

Lemma clear_docs backend fn w :
  docs (world (run (FirestoreStore.clear backend fn) w).1)
  = if succeeds backend (served w)
    then docs (world (FirestoreStore.forEach_delete backend
                        (map_to_list (docs w))
                        {| world := after_read backend w; calls := [] |}).1)
    else docs w.
Proof.
  unfold succeeds, after_read. unfold_store.
  destruct (outcome (backend (served w))); simpl; [|done].
  destruct (FirestoreStore.forEach_delete _ _ _) as [s1 remove]; simpl.
  destruct (Js.Promise_all remove); simpl; by repeat destruct (fn _ _).
Qed.

Lemma clear_first_call backend fn w :
  succeeds backend (served w) = true →
  calls (run (FirestoreStore.clear backend fn) w).1 !! 0%nat
  = Some [match Js.Promise_all
                  ((λ n, outcome (backend n))
                     <$> seq (S (served w)) (size (docs w))) with
          | Fulfilled acks => VArr acks
          | Rejected e => e
          end].
Proof.
  intros [snap Hsnap]%succeeds_outcome.
  pose proof (bulk_first_call backend fn (map_to_list (docs w))
                (after_read backend w)) as Hbulk.
  rewrite length_map_to_list in Hbulk. simpl in Hbulk.
  rewrite <- Hbulk. unfold after_read. unfold_store. rewrite Hsnap; simpl.
  destruct (FirestoreStore.forEach_delete _ _ _) as [s1 remove]; simpl.
  destruct (Js.Promise_all remove); simpl; by repeat destruct (fn _ _).
Qed.

Lemma reap_first_call backend fn w :
  succeeds backend (served w) = true →
  calls (run (FirestoreStore.reap backend fn) w).1 !! 0%nat
  = Some [match Js.Promise_all
                  ((λ n, outcome (backend n))
                     <$> seq (S (served w))
                           (size (filter (λ kd : string * Doc,
                                            expires kd.2 < clock w) (docs w))))
          with
          | Fulfilled acks => VArr acks
          | Rejected e => e
          end].
Proof.
  intros [snap Hsnap]%succeeds_outcome.
  pose proof (bulk_first_call backend fn
                (map_to_list (filter (λ kd : string * Doc,
                                        expires kd.2 < clock w) (docs w)))
                (after_read backend w)) as Hbulk.
  rewrite length_map_to_list in Hbulk. simpl in Hbulk.
  rewrite <- Hbulk. unfold after_read. unfold_store. rewrite Hsnap; simpl.
  destruct (FirestoreStore.forEach_delete _ _ _) as [s1 remove]; simpl.
  destruct (Js.Promise_all remove); simpl; by repeat destruct (fn _ _).
Qed.

(** Which documents a pass of [forEach] removes: the [j]-th one listed
    is gone exactly when its delete, the [j]-th request of the pass, is
    served. *)
Lemma forEach_delete_index backend snapshots s j k d :
  NoDup snapshots.*1 → snapshots !! j = Some (k, d) →
  docs (world (FirestoreStore.forEach_delete backend snapshots s).1) !! k
  = if succeeds backend (served (world s) + j)%nat
    then None else docs (world s) !! k.
Proof.
  revert s j. induction snapshots as [|[k0 d0] rest IH]; intros s j Hnd Hj;
    [done|].
  rewrite fmap_cons in Hnd. apply NoDup_cons in Hnd as [Hk0 Hnd].
  simpl.
  pose proof (doc_delete_docs backend k0 s) as Hdel.
  pose proof (doc_delete_served backend k0 s) as Hs.
  destruct (FirestoreStore.doc_delete backend k0 s) as [s1 p].
  pose proof (forEach_delete_frame backend rest s1 k) as [Hout _].
  specialize (IH s1).
  destruct (FirestoreStore.forEach_delete backend rest s1) as [s2 remove].
  simpl in *. destruct j as [|j]; simpl in Hj.
  - injection Hj as -> ->. rewrite Nat.add_0_r.
    rewrite (Hout Hk0), Hdel.
    destruct (succeeds _ _); [apply lookup_delete_eq | done].
  - assert (k ≠ k0) as Hne.
    { intros ->. apply Hk0. apply (list_elem_of_fmap_2' fst _ (k0, d)); [|done].
      by apply list_elem_of_lookup_2 with j. }
    rewrite (IH j Hnd Hj), Hs, Nat.add_succ_r. cbn [Nat.add].
    destruct (succeeds backend (S (served (world s) + j))); [done|].
    rewrite Hdel.
    destruct (succeeds backend (served (world s)));
      [by rewrite lookup_delete_ne | done].
Qed.

(** X12: when the backend serves every request, [clear] leaves the
    collection empty and hands the callback one array holding an
    acknowledgement for every document there was; on an empty collection
    that is the empty array. *)
Theorem clear_empties_collection backend fn w :
  (∀ n, succeeds backend n = true) →
  docs (world (run (FirestoreStore.clear backend fn) w).1) = ∅
  ∧ ∃ acks,
      calls (run (FirestoreStore.clear backend fn) w).1 !! 0%nat
      = Some [VArr acks]
      ∧ length acks = size (docs w).
Proof.
  intros Hok. split.
  - rewrite clear_docs, Hok. apply map_empty. intros k.
    match goal with
    | |- context [FirestoreStore.forEach_delete ?b ?l ?s] =>
        pose proof (forEach_delete_frame b l s k) as [Hout _];
        pose proof (forEach_delete_complete b l s k Hok) as Hall
    end.
    simpl in Hout, Hall.
    destruct (docs w !! k) as [d|] eqn:Hd.
    + apply Hall. apply list_elem_of_fmap. exists (k, d). split; [done|].
      by apply elem_of_map_to_list.
    + rewrite Hout; [done|]. rewrite list_elem_of_fmap.
      intros ([k' d] & -> & Hin). apply elem_of_map_to_list in Hin.
      simpl in Hd. congruence.
  - destruct (Promise_all_fulfilled backend (S (served w)) (size (docs w)) Hok)
      as (acks & Hacks & Hlen).
    exists acks. rewrite clear_first_call by done. by rewrite Hacks.
Qed.

Lemma clear_empties_collection_witness :
  docs (world (run (FirestoreStore.clear (steady (writeResult 2000)) quiet)
                 two_docs).1) = ∅
  ∧ ∃ acks,
      calls (run (FirestoreStore.clear (steady (writeResult 2000)) quiet)
               two_docs).1 !! 0%nat = Some [VArr acks]
      ∧ length acks = size (docs two_docs).
Proof.
  exact (clear_empties_collection (steady (writeResult 2000)) quiet two_docs
           (λ _, eq_refl)).
Defined.

(** X13: when [clear] has listed the collection and the backend rejects
    one of the deletes, having served the ones issued before it, the
    callback is invoked with that rejection; nothing is rolled back: a
    listed document is gone if its own delete was served and is as it
    was if not. *)
Theorem clear_reports_first_failed_delete backend fn w i e :
  succeeds backend (served w) = true →
  (i < size (docs w))%nat →
  outcome (backend (S (served w) + i)%nat) = Rejected e →
  (∀ j, (j < i)%nat → succeeds backend (S (served w) + j)%nat = true) →
  calls (run (FirestoreStore.clear backend fn) w).1 !! 0%nat = Some [e]
  ∧ ∀ j k d, map_to_list (docs w) !! j = Some (k, d) →
      docs (world (run (FirestoreStore.clear backend fn) w).1) !! k
      = if succeeds backend (S (served w) + j)%nat then None else Some d.
Proof.
  intros Hok Hi He Hbefore. split.
  - rewrite clear_first_call by done.
    by rewrite (Promise_all_first_rejection backend (S (served w))
                  (size (docs w)) i e).
  - intros j k d Hj. rewrite clear_docs, Hok.
    rewrite (forEach_delete_index backend _ _ j k d);
      [| apply NoDup_fst_map_to_list | done].
    simpl. destruct (succeeds backend (S (served w + j))); [done|].
    apply elem_of_map_to_list. by apply list_elem_of_lookup_2 with j.
Qed.

Lemma clear_reports_first_failed_delete_witness :
  calls (run (FirestoreStore.clear
                (failing_at 1 (VErr "unavailable") (writeResult 2000)) quiet)
           two_docs).1 !! 0%nat
  = Some [VErr "unavailable"].
Proof.
  refine (proj1 (clear_reports_first_failed_delete
                   (failing_at 1 (VErr "unavailable") (writeResult 2000)) quiet
                   two_docs 0 (VErr "unavailable") eq_refl _ eq_refl _)).
  - vm_compute. lia.
  - intros j Hj. lia.
Defined.

(** X14: once the query is served, a pass of [reap] over a collection
    with nothing expired issues no delete, leaves every document as it
    was and hands the callback the empty array; when the backend serves
    every request the callback gets one array with an acknowledgement
    for every expired document. *)
Theorem reap_reports_acknowledgements backend fn w :
  succeeds backend (served w) = true →
  ((∀ k d, docs w !! k = Some d → clock w ≤ expires d) →
   calls (run (FirestoreStore.reap backend fn) w).1 !! 0%nat
   = Some [VArr []]
   ∧ docs (world (run (FirestoreStore.reap backend fn) w).1) = docs w)
  ∧ ((∀ n, succeeds backend n = true) →
     ∃ acks,
       calls (run (FirestoreStore.reap backend fn) w).1 !! 0%nat
       = Some [VArr acks]
       ∧ length acks
         = size (filter (λ kd : string * Doc, expires kd.2 < clock w)
                   (docs w))).
Proof.
  intros Hok. split.
  - intros Hvalid.
    assert (filter (λ kd : string * Doc, expires kd.2 < clock w) (docs w) = ∅)
      as Hnone.
    { apply map_empty. intros k. apply map_lookup_filter_None. right.
      intros d Hd Hlt. specialize (Hvalid k d Hd). simpl in Hlt. lia. }
    split.
    + rewrite reap_first_call by done. by rewrite Hnone, map_size_empty.
    + rewrite reap_docs, Hok, Hnone. by rewrite map_to_list_empty.
  - intros Hall.
    destruct (Promise_all_fulfilled backend (S (served w))
                (size (filter (λ kd : string * Doc, expires kd.2 < clock w)
                         (docs w))) Hall) as (acks & Hacks & Hlen).
    exists acks. rewrite reap_first_call by done. by rewrite Hacks.
Qed.

Lemma reap_reports_acknowledgements_witness :
  calls (run (FirestoreStore.reap (steady (writeResult 1500)) quiet)
           (holding fresh_doc 1500)).1 !! 0%nat = Some [VArr []]
  ∧ docs (world (run (FirestoreStore.reap (steady (writeResult 1500)) quiet)
                   (holding fresh_doc 1500)).1)
    = docs (holding fresh_doc 1500).
Proof.
  apply (proj1 (reap_reports_acknowledgements (steady (writeResult 1500)) quiet
                  (holding fresh_doc 1500) eq_refl)).
  intros k d Hd. simpl in Hd.
  apply lookup_singleton_Some in Hd as [_ <-]. simpl. lia.
Defined.

(** ** Keys that need no cleaning *)

Lemma replace_char_fixed c : replace_char c = c ↔ disallowed c = false.
Proof.
  split.
  - intros Hfix. rewrite <- Hfix. apply replace_char_allowed.
  - intros Hok. unfold replace_char. by rewrite Hok.
Qed.

Lemma cleanRef_app str str' :
  cleanRef (String.append str str')
  = String.append (cleanRef str) (cleanRef str').
Proof. induction str as [|c rest IH]; simpl; [done | by rewrite IH]. Qed.

(** X15: [cleanRef] returns its argument unchanged exactly when the
    argument holds none of the six characters; cleaning a cleaned key
    changes nothing more, and cleaning a concatenation is concatenating
    the cleaned parts. *)
Theorem cleanRef_fixes_clean_keys (str : string) :
  (cleanRef str = str
   ↔ ∀ i c, String.get i str = Some c → c ∉ disallowed_chars)
  ∧ cleanRef (cleanRef str) = cleanRef str
  ∧ ∀ str', cleanRef (String.append str str')
            = String.append (cleanRef str) (cleanRef str').
Proof.
  split; [|split; [apply cleanRef_idem | apply cleanRef_app]].
  induction str as [|c rest IH]; simpl.
  - split; [by intros _ [|i] c | done].
  - split.
    + intros [= Hc Hrest] [|i] c'; simpl.
      * intros [= <-]. apply replace_char_fixed in Hc.
        rewrite disallowed_spec in Hc. by apply bool_decide_eq_false in Hc.
      * by apply IH.
    + intros Hall. f_equal.
      * apply replace_char_fixed. rewrite disallowed_spec.
        apply bool_decide_eq_false. by apply (Hall 0%nat).
      * apply IH. intros i c'. apply (Hall (S i)).
Qed.

(** ** The constructor *)

(** X16: a store that has been constructed names its collection
    [sessions] unless the option is a string, in which case the name is
    that string cleaned (the empty string is kept); so the name never
    holds one of the six characters. *)
Theorem constructed_collection_is_clean this args store :
  FirestoreStore_new this args = Fulfilled store →
  sessions store
  = match opt_sessions args with
    | VStr s => cleanRef s
    | _ => "sessions"
    end
  ∧ ∀ i c, String.get i (sessions store) = Some c → c ∉ disallowed_chars.
Proof.
  intros Hnew.
  assert (sessions store
          = cleanRef match opt_sessions args with
                     | VStr s => s
                     | _ => "sessions"
                     end) as Hname.
  { unfold FirestoreStore_new in Hnew.
    destruct (opt_database args); try discriminate;
      by injection Hnew as <-. }
  split.
  - rewrite Hname. by destruct (opt_sessions args).
  - rewrite Hname. intros i c. rewrite cleanRef_get.
    destruct (String.get i _) as [c'|]; simpl; [|done].
    intros [= <-] Hin. pose proof (replace_char_allowed c') as Hc.
    rewrite disallowed_spec in Hc. by apply bool_decide_eq_false in Hc.
Qed.

Lemma constructed_collection_is_clean_witness :
  ∃ store,
    FirestoreStore_new VUndef
      {| opt_database := Firestore "demo";
         opt_sessions := VStr "app/sessions";
         opt_reapInterval := Value VUndef;
         opt_reapCallback := Value VUndef |} = Fulfilled store
    ∧ sessions store = "app_sessions".
Proof.
  eexists. split; [reflexivity|].
  exact (proj1 (constructed_collection_is_clean VUndef
                  {| opt_database := Firestore "demo";
                     opt_sessions := VStr "app/sessions";
                     opt_reapInterval := Value VUndef;
                     opt_reapCallback := Value VUndef |} _ eq_refl)).
Defined.

(** X17: the timer of a constructed store never has period 0: its
    period is the number given as [reapInterval], or 21600000 when that
    option is absent, 0 or otherwise falsy; with such an option and a
    callback that is absent or a function the timer is always started,
    so the reaper cannot be switched off by passing 0. *)
Theorem reaper_period_is_never_zero this args store :
  FirestoreStore_new this args = Fulfilled store →
  (∀ period callback, timer store = Some (period, callback) →
     period ≠ 0
     ∧ (opt_reapInterval args = Value (VNum period)
        ∨ (option_truthy (opt_reapInterval args) = false
           ∧ period = 21600000)))
  ∧ (option_truthy (opt_reapInterval args) = false →
     (option_truthy (opt_reapCallback args) = false
      ∨ ∃ f, opt_reapCallback args = Fun f) →
     ∃ callback, timer store = Some (21600000, callback)).
Proof.
  intros Hnew.
  assert (timer store
          = match or_else (opt_reapInterval args) (Value (VNum reapInterval)),
                  or_else (opt_reapCallback args) (Fun (reapCallback this)) with
            | Value (VNum period), Fun callback => Some (period, callback)
            | _, _ => None
            end) as Htimer.
  { unfold FirestoreStore_new in Hnew.
    destruct (opt_database args); try discriminate;
      by injection Hnew as <-. }
  rewrite Htimer. unfold or_else. split.
  - intros period callback.
    destruct (option_truthy (opt_reapInterval args)) eqn:Ht.
    + destruct (opt_reapInterval args) as [[]|]; try done.
      destruct (if option_truthy _ then _ else _); [done|].
      intros [= <- <-]. split; [|by left].
      simpl in Ht. intros ->. done.
    + destruct (if option_truthy _ then _ else _); [done|].
      intros [= <- <-]. split; [done | by right].
  - intros -> [Hcb | [f ->]].
    + rewrite Hcb. by eexists.
    + simpl. by eexists.
Qed.

Lemma reaper_period_is_never_zero_witness :
  ∃ store callback,
    FirestoreStore_new VUndef
      {| opt_database := App (Firestore "demo");
         opt_sessions := VUndef;
         opt_reapInterval := Value (VNum 0);
         opt_reapCallback := Value VUndef |} = Fulfilled store
    ∧ timer store = Some (21600000, callback).
Proof.
  eexists.
  destruct (proj2 (reaper_period_is_never_zero VUndef
                     {| opt_database := App (Firestore "demo");
                        opt_sessions := VUndef;
                        opt_reapInterval := Value (VNum 0);
                        opt_reapCallback := Value VUndef |} _ eq_refl)
              eq_refl (or_introl eq_refl)) as [callback Htimer].
  exists callback. split; [reflexivity | exact Htimer].
Defined.

(** X18: with no [reapCallback] option the timer reports to the default
    callback, which returns and never throws: every pass of the
    reaper then invokes it exactly once, whatever the backend does. *)
Theorem default_reaper_reports_once this args store period callback backend w :
  FirestoreStore_new this args = Fulfilled store →
  option_truthy (opt_reapCallback args) = false →
  timer store = Some (period, callback) →
  length (calls (run (FirestoreStore.reap backend callback) w).1) = 1%nat.
Proof.
  intros Hnew Hcb Htimer.
  assert (callback = reapCallback this) as ->.
  { unfold FirestoreStore_new in Hnew.
    destruct (opt_database args); try discriminate;
      injection Hnew as <-; simpl in Htimer;
      unfold or_else in Htimer; rewrite Hcb in Htimer;
      destruct (if option_truthy _ then _ else _) as [[]|];
      congruence. }
  apply (exec_calls_once backend (reapCallback this) OpReap w eq_refl).
  intros n args'. by exists this.
Qed.

Lemma default_reaper_reports_once_witness :
  length (calls (run (FirestoreStore.reap (steady (writeResult 2000))
                        (reapCallback VUndef)) two_docs).1) = 1%nat.
Proof.
  exact (default_reaper_reports_once VUndef
           {| opt_database := Firestore "demo";
              opt_sessions := VUndef;
              opt_reapInterval := Value VUndef;
              opt_reapCallback := Value VUndef |}
           _ 21600000 (reapCallback VUndef) (steady (writeResult 2000))
           two_docs eq_refl eq_refl eq_refl).
Defined.
